(** * RevenueCat webhook: subscription-permission synchronisation

    A shallow embedding of [supabase/functions/revenuecat-webhook/index.ts]:
    the [serve] request handler, the four permission handlers
    ([handleSubscriptionActivation], [handleSubscriptionCancellation],
    [handleSubscriptionExpiration], [handleBillingIssue]) and the
    fire-and-forget helper [triggerPremiumInsightsGeneration].

    The handlers are written in a state-and-exception monad over a [world]
    that holds the [user_permissions] table, the process environment, and
    the answers of everything the code cannot control: the system clock,
    failures of the permission store, the reply of the insights endpoint
    and the builtins of the runtime that are not computed here (its URL
    parser and its case mapping of characters beyond U+00FF).  Every
    request made to a collaborator is appended to a trace, so that "no
    record is read or written" is a statement about the trace.  Calls to
    [console.log] and [console.error] have no other effect and are left
    out. *)

From stdpp Require Import gmap strings list.
From Stdlib Require Import ZArith Ascii.

Open Scope Z_scope.

(** ** JavaScript values *)

(** Values held in the open [metadata] map of a permission record, and the
    value of the [store] field of an incoming event. *)
Inductive jsval :=
| JUndefined
| JNull
| JBool (b : bool)
| JNum (n : Z)
| JStr (s : string).

#[global] Instance jsval_eq_dec : EqDecision jsval.
Proof. solve_decision. Defined.

(** A property of an upsert payload whose TypeScript type is
    [string | null | undefined]. *)
Inductive column :=
| Undefined
| Null
| Text (s : string).

#[global] Instance column_eq_dec : EqDecision column.
Proof. solve_decision. Defined.

(** [!s] for a value of type [string | undefined]: absent or empty. *)
Definition falsy (s : option string) : bool :=
  match s with
  | None => true
  | Some v => String.eqb v ""
  end.

(** [s || ""] for a value of type [string | undefined]. *)
Definition or_empty (s : option string) : string :=
  match s with
  | Some v => v
  | None => ""
  end.

(** The builtins of the JavaScript runtime that are not computed here. *)
Record builtins := Builtins {
  (** [new URL(s)] returns; otherwise it throws [TypeError: Invalid URL] *)
  URL_parses : string -> bool;
  (** [s.toLowerCase()] for a string [s] with a character beyond
      U+00FF *)
  unicode_toLowerCase : string -> string
}.

(** The lower case of a character of Basic Latin: A to Z. *)
Definition lower_ascii (c : ascii) : ascii :=
  let n := nat_of_ascii c in
  if ((65 <=? n) && (n <=? 90))%nat then ascii_of_nat (n + 32) else c.

(** The second byte of the lower case of a character of the Latin-1
    Supplement, U+0080 to U+00FF, whose UTF-8 encoding is [lead] (0xC2 or
    0xC3) and [c]: U+00C0 to U+00DE other than the multiplication sign
    U+00D7 are the upper case letters, 0x20 below their lower case. *)
Definition lower_latin1 (lead c : ascii) : ascii :=
  let n := nat_of_ascii c in
  if ((nat_of_ascii lead =? 195) && (128 <=? n) && (n <=? 158)
      && negb (n =? 151))%nat
  then ascii_of_nat (n + 32) else c.

(** The lower case of a string of characters up to U+00FF; [None] for a
    string with any other character.  A string is the UTF-8 encoding of
    the JavaScript string. *)
Fixpoint lower_case (s : string) : option string :=
  match s with
  | EmptyString => Some EmptyString
  | String c rest =>
      let n := nat_of_ascii c in
      if (n <? 128)%nat then String (lower_ascii c) <$> lower_case rest
      else if ((n =? 194) || (n =? 195))%nat then
        match rest with
        | String d rest' =>
            let m := nat_of_ascii d in
            if ((128 <=? m) && (m <=? 191))%nat then
              (λ t, String c (String (lower_latin1 c d) t)) <$> lower_case rest'
            else None
        | EmptyString => None
        end
      else None
  end.

(** [String.prototype.toLowerCase]: computed for the characters up to
    U+00FF, none of which has a lower case that depends on its neighbours;
    the runtime's for a string with other characters. *)
Definition toLowerCase (runtime : builtins) (s : string) : string :=
  match lower_case s with
  | Some t => t
  | None => unicode_toLowerCase runtime s
  end.

(** ** [Date.prototype.toISOString] *)

Module ISO.

Definition digit (n : Z) : string :=
  String (ascii_of_nat (48 + Z.to_nat (n mod 10))) EmptyString.

(** The [width] low decimal digits of [n], zero-padded. *)
Fixpoint pad (width : nat) (n : Z) : string :=
  match width with
  | O => ""
  | S w => pad w (n / 10) +:+ digit n
  end.

(** Largest time value of a valid [Date]: 8.64e15 ms either side of the
    epoch. *)
Definition max_time : Z := 8640000000000000.

Definition valid (ms : Z) : bool := Z.abs ms <=? max_time.

(** Year, month and day of the proleptic Gregorian calendar for a day
    number counted from 1970-01-01. *)
Definition civil (days : Z) : Z * Z * Z :=
  let z := days + 719468 in
  let era := z / 146097 in
  let doe := z mod 146097 in
  let yoe := (doe - doe / 1460 + doe / 36524 - doe / 146096) / 365 in
  let doy := doe - (365 * yoe + yoe / 4 - yoe / 100) in
  let mp := (5 * doy + 2) / 153 in
  let d := doy - (153 * mp + 2) / 5 + 1 in
  let m := if mp <? 10 then mp + 3 else mp - 9 in
  let y := yoe + era * 400 + (if m <=? 2 then 1 else 0) in
  (y, m, d).

Definition year (y : Z) : string :=
  if (0 <=? y) && (y <=? 9999) then pad 4 y
  else (if y <? 0 then "-" else "+") +:+ pad 6 (Z.abs y).

Definition format (ms : Z) : string :=
  let '(y, m, d) := civil (ms / 86400000) in
  let r := ms mod 86400000 in
  year y +:+ "-" +:+ pad 2 m +:+ "-" +:+ pad 2 d +:+ "T"
    +:+ pad 2 (r / 3600000) +:+ ":" +:+ pad 2 (r / 60000 mod 60) +:+ ":"
    +:+ pad 2 (r / 1000 mod 60) +:+ "." +:+ pad 3 (r mod 1000) +:+ "Z".

End ISO.

(** ** The permission store *)

(** A row of [user_permissions].  The table is keyed by
    [(profile_id, permission_id)]; the text columns and [metadata] are
    nullable. *)
Record permission := Permission {
  profile_id : string;
  permission_id : string;
  active : bool;
  expires_at : option string;
  product_id : option string;
  platform : option string;
  revenuecat_user_id : option string;
  metadata : option (gmap string jsval)
}.

(** The object handed to [.upsert(...)]. *)
Record payload := Payload {
  p_profile_id : string;
  p_permission_id : string;
  p_active : bool;
  p_expires_at : column;
  p_product_id : column;
  p_platform : column;
  p_revenuecat_user_id : string;
  p_metadata : gmap string jsval
}.

(** A property that is [undefined] is dropped when the payload is
    serialised, so the column keeps its stored value (NULL on insert);
    [null] stores NULL. *)
Definition write_column (old : option string) (c : column) : option string :=
  match c with
  | Undefined => old
  | Null => None
  | Text s => Some s
  end.

Definition upsert_row (old : option permission) (p : payload) : permission :=
  {| profile_id := p_profile_id p;
     permission_id := p_permission_id p;
     active := p_active p;
     expires_at := write_column (old ≫= expires_at) (p_expires_at p);
     product_id := write_column (old ≫= product_id) (p_product_id p);
     platform := write_column (old ≫= platform) (p_platform p);
     revenuecat_user_id := Some (p_revenuecat_user_id p);
     metadata := Some (p_metadata p) |}.

(** Reading a column of a row into a payload property:
    [existingPermission?.col]. *)
Definition read_column (row : option permission)
    (col : permission -> option string) : column :=
  match row with
  | None => Undefined
  | Some r => match col r with
              | None => Null
              | Some s => Text s
              end
  end.

(** ** The world *)

(** How a computation, or an awaited promise, ends: with a value or with a
    thrown exception. *)
Inductive outcome (A : Type) :=
| Ok (a : A)
| Throw (e : string).
Arguments Ok {A} a.
Arguments Throw {A} e.

(** What the insights endpoint answers. *)
Record http_response := HttpResponse {
  ok : bool;
  (** [await response.text()] *)
  text_body : outcome string;
  (** [await response.json()], then [.insightsId]; [Ok None] is a body
      without that property to read (JSON [null]). *)
  json_body : outcome (option string)
}.

(** Requests made to the collaborators, oldest first. *)
Inductive effect :=
| StoreSelect (columns profile permission : string)
| StoreUpsert (p : payload)
| InsightsTrigger (userId : string)
| InsightsPost (url bearer userId trigger : string).

Record world := World {
  runtime : builtins;
  db : gmap (string * string) permission;
  env : gmap string string;
  (** the [i]-th reading of [new Date().toISOString()] *)
  clock : nat -> string;
  clock_reads : nat;
  (** the error, if any, with which the store answers its [i]-th request *)
  store_fault : nat -> option string;
  store_requests : nat;
  (** the reply of the insights endpoint *)
  insights_reply : outcome http_response;
  trace : list effect
}.

(** ** The monad *)

Definition M (A : Type) : Type := world -> outcome A * world.

Definition ret {A} (a : A) : M A := fun w => (Ok a, w).

Definition throw {A} (e : string) : M A := fun w => (Throw e, w).

Definition bind {A B} (m : M A) (k : A -> M B) : M B :=
  fun w =>
    match m w with
    | (Ok a, w') => k a w'
    | (Throw e, w') => (Throw e, w')
    end.

(** [try { body } catch (error) { handler }] *)
Definition try_catch {A} (body : M A) (handler : string -> M A) : M A :=
  fun w =>
    match body w with
    | (Ok a, w') => (Ok a, w')
    | (Throw e, w') => handler e w'
    end.

(** Calling an [async] function without [await]: the caller goes on
    whatever the promise settles to. *)
Definition detached (m : M unit) : M unit :=
  fun w => (Ok tt, snd (m w)).

Notation "'let*' x ':=' m 'in' k" := (bind m (fun x => k))
  (at level 10, x pattern, m at level 100, k at level 200).

Definition record_effect (ev : effect) (w : world) : world :=
  {| runtime := runtime w;
     db := db w; env := env w; clock := clock w; clock_reads := clock_reads w;
     store_fault := store_fault w; store_requests := store_requests w;
     insights_reply := insights_reply w; trace := trace w ++ [ev] |}.

Definition count_store_request (w : world) : world :=
  {| runtime := runtime w;
     db := db w; env := env w; clock := clock w; clock_reads := clock_reads w;
     store_fault := store_fault w; store_requests := S (store_requests w);
     insights_reply := insights_reply w; trace := trace w |}.

Definition count_clock_read (w : world) : world :=
  {| runtime := runtime w;
     db := db w; env := env w; clock := clock w;
     clock_reads := S (clock_reads w);
     store_fault := store_fault w; store_requests := store_requests w;
     insights_reply := insights_reply w; trace := trace w |}.

Definition set_db (d : gmap (string * string) permission) (w : world) : world :=
  {| runtime := runtime w;
     db := d; env := env w; clock := clock w; clock_reads := clock_reads w;
     store_fault := store_fault w; store_requests := store_requests w;
     insights_reply := insights_reply w; trace := trace w |}.

(** Entering a function whose calls are observed. *)
Definition note (ev : effect) : M unit :=
  fun w => (Ok tt, record_effect ev w).

(** [Deno.env.get(name)] *)
Definition getenv (name : string) : M (option string) :=
  fun w => (Ok (env w !! name), w).

(** [new Date().toISOString()] *)
Definition now : M string :=
  fun w => (Ok (clock w (clock_reads w)), count_clock_read w).

(** [date.toISOString()], a [RangeError] on an invalid date. *)
Definition toISOString (ms : Z) : M string :=
  if ISO.valid ms then ret (ISO.format ms)
  else throw "RangeError: Invalid time value".

(** [supabase.from('user_permissions').select(columns)
      .eq('profile_id', u).eq('permission_id', e).maybeSingle()]:
    the pair [{ data, error }]. *)
Definition store_select (columns u e : string)
  : M (option permission * option string) :=
  fun w =>
    let w' := count_store_request (record_effect (StoreSelect columns u e) w) in
    match store_fault w (store_requests w) with
    | Some err => (Ok (None, Some err), w')
    | None => (Ok (db w !! (u, e), None), w')
    end.

(** [supabase.from('user_permissions').upsert(p)]: the [error] of the
    reply. *)
Definition store_upsert (p : payload) : M (option string) :=
  fun w =>
    let w' := count_store_request (record_effect (StoreUpsert p) w) in
    let k := (p_profile_id p, p_permission_id p) in
    match store_fault w (store_requests w) with
    | Some err => (Ok (Some err), w')
    | None => (Ok None, set_db (<[k := upsert_row (db w !! k) p]> (db w)) w')
    end.

(** [url.replace(/\/$/, '')], the [stripTrailingSlash] of supabase-js. *)
Fixpoint stripTrailingSlash (url : string) : string :=
  match url with
  | EmptyString => EmptyString
  | String c rest =>
      if Ascii.eqb c "/" && String.eqb rest "" then EmptyString
      else String c (stripTrailingSlash rest)
  end.

(** [new URL(address)], of which only the parsing matters. *)
Definition new_URL (address : string) : M unit :=
  fun w =>
    if URL_parses (runtime w) address then (Ok tt, w)
    else (Throw "TypeError: Invalid URL", w).

(** [createClient(url, key)] of supabase-js 2.31.0: no request is made.
    The constructor refuses an empty URL or key, and it parses the
    address of the authentication service, the URL without a trailing
    slash followed by [/auth/v1], for the name of its storage key. *)
Definition createClient (url key : string) : M unit :=
  if String.eqb url "" then throw "supabaseUrl is required."
  else if String.eqb key "" then throw "supabaseKey is required."
  else new_URL (stripTrailingSlash url +:+ "/auth/v1").

(** [fetch(url, { method: 'POST', headers, body })] to the insights
    endpoint. *)
Definition fetch (url bearer userId trigger : string) : M http_response :=
  fun w =>
    let w' := record_effect (InsightsPost url bearer userId trigger) w in
    match insights_reply w with
    | Ok r => (Ok r, w')
    | Throw e => (Throw e, w')
    end.

(** Lifting the settled value of an awaited promise. *)
Definition await {A} (o : outcome A) : M A :=
  match o with
  | Ok a => ret a
  | Throw e => throw e
  end.

(** ** Requests, events and responses *)

(** The [event] object of a [RequestPayload], with the fields the handler
    reads ([ev_product_id] is its [product_id]).  [entitlement_ids] may be
    absent; [store] is whatever JSON value the sender put there. *)
Record event := Event {
  type : string;
  original_app_user_id : string;
  ev_product_id : string;
  entitlement_ids : option (list string);
  environment : string;
  expiration_at_ms : option Z;
  transaction_id : string;
  store : jsval
}.

Record request := Request {
  method : string;
  (** [req.headers.get("Authorization")] *)
  authorization : option string;
  (** [(await req.json()).event]; [None] when the body does not parse or
      carries no event object *)
  body : option event
}.

Inductive response_body :=
| NoBody
| ErrorBody (error : string)
| Processed (event_type environment user_id : string)
| Failed (status message : string).

Record response := Response {
  status : Z;
  headers : list (string * string);
  content : response_body
}.

Definition json_headers : list (string * string) :=
  [("Content-Type", "application/json")].

Inductive EventType :=
| INITIAL_PURCHASE
| RENEWAL
| CANCELLATION
| EXPIRATION
| PRODUCT_CHANGE
| BILLING_ISSUE
| NON_RENEWING_PURCHASE.

(** The member of [EventType] a raw type string denotes, if any. *)
Definition as_EventType (t : string) : option EventType :=
  if String.eqb t "INITIAL_PURCHASE" then Some INITIAL_PURCHASE
  else if String.eqb t "RENEWAL" then Some RENEWAL
  else if String.eqb t "CANCELLATION" then Some CANCELLATION
  else if String.eqb t "EXPIRATION" then Some EXPIRATION
  else if String.eqb t "PRODUCT_CHANGE" then Some PRODUCT_CHANGE
  else if String.eqb t "BILLING_ISSUE" then Some BILLING_ISSUE
  else if String.eqb t "NON_RENEWING_PURCHASE" then Some NON_RENEWING_PURCHASE
  else None.

(** [eventData.entitlement_ids?.[0] || "product_a"] *)
Definition resolve_entitlement (ids : option (list string)) : string :=
  match ids with
  | Some (first :: _) => if String.eqb first "" then "product_a" else first
  | _ => "product_a"
  end.

(** [expirationMs ? new Date(expirationMs) : null]; a date is its time
    value. *)
Definition expiration_date (expirationMs : option Z) : option Z :=
  match expirationMs with
  | Some ms => if ms =? 0 then None else Some ms
  | None => None
  end.

(** [expiresAt ? expiresAt.toISOString() : null] *)
Definition expiration_string (expiresAt : option Z) : M (option string) :=
  match expiresAt with
  | Some d => let* s := toISOString d in ret (Some s)
  | None => ret None
  end.

(** A [string | null] as a payload property. *)
Definition nullable (s : option string) : column :=
  match s with
  | Some v => Text v
  | None => Null
  end.

(** [existingPermission?.metadata || {}] *)
Definition existing_metadata (row : option permission) : gmap string jsval :=
  match row ≫= metadata with
  | Some m => m
  | None => ∅
  end.

(** ** The handlers *)

(** [!existingPermission || !existingPermission.active] *)
Definition is_new (existingPermission : option permission) : bool :=
  match existingPermission with
  | None => true
  | Some row => negb (active row)
  end.

Definition triggerPremiumInsightsGeneration (userId : string) : M unit :=
  let* _ := note (InsightsTrigger userId) in
  try_catch
    (let* SUPABASE_URL := getenv "SUPABASE_URL" in
     let* SUPABASE_SERVICE_ROLE_KEY := getenv "SUPABASE_SERVICE_ROLE_KEY" in
     if String.eqb (or_empty SUPABASE_URL) "" then
       throw "SUPABASE_URL not configured"
     else
       let* insightsResponse :=
         fetch (or_empty SUPABASE_URL +:+ "/functions/v1/analyze-golf-performance")
               ("Bearer " +:+ or_empty SUPABASE_SERVICE_ROLE_KEY)
               userId "purchase_webhook" in
       if negb (ok insightsResponse) then
         let* errorText := await (text_body insightsResponse) in
         ret tt
       else
         let* insightsResult := await (json_body insightsResponse) in
         match insightsResult with
         | Some insightsId => ret tt
         | None => throw "TypeError: cannot read properties of null"
         end)
    (fun error => ret tt).

Definition handleSubscriptionActivation
    (userId entitlementId productId platform : string) (expiresAt : option Z)
    (transactionId environment : string) : M unit :=
  try_catch
    (let* expirationString := expiration_string expiresAt in
     let* (existingPermission, _) :=
       store_select "active, created_at" userId entitlementId in
     let isNewSubscription := is_new existingPermission in
     let* updated_at := now in
     let* event_processed_at := now in
     let* error :=
       store_upsert
         {| p_profile_id := userId;
            p_permission_id := entitlementId;
            p_active := true;
            p_expires_at := nullable expirationString;
            p_product_id := Text productId;
            p_platform := Text platform;
            p_revenuecat_user_id := userId;
            p_metadata :=
              <["event_processed_at" := JStr event_processed_at]>
              (<["source" := JStr "revenuecat_webhook"]>
              (<["status" := JStr "active"]>
              (<["updated_at" := JStr updated_at]>
              (<["environment" := JStr environment]>
              (<["transaction_id" := JStr transactionId]> ∅))))) |} in
     match error with
     | Some e => throw e
     | None =>
         if String.eqb entitlementId "product_a" && isNewSubscription then
           detached (triggerPremiumInsightsGeneration userId)
         else ret tt
     end)
    (fun error => throw error).

Definition handleSubscriptionCancellation
    (userId entitlementId : string) (expiresAt : option Z) : M unit :=
  try_catch
    (let* expirationString := expiration_string expiresAt in
     let* (existingPermission, fetchError) :=
       store_select "*" userId entitlementId in
     match fetchError with
     | Some e => throw e
     | None =>
         let existingMetadata := existing_metadata existingPermission in
         let* cancelled_at := now in
         let updatedMetadata :=
           <["source" := JStr "revenuecat_webhook"]>
           (<["cancelled_at" := JStr cancelled_at]>
           (<["status" := JStr "cancelled"]> existingMetadata)) in
         let* error :=
           store_upsert
             {| p_profile_id := userId;
                p_permission_id := entitlementId;
                p_active := true;
                p_expires_at := nullable expirationString;
                p_product_id := read_column existingPermission product_id;
                p_platform := read_column existingPermission platform;
                p_revenuecat_user_id := userId;
                p_metadata := updatedMetadata |} in
         match error with
         | Some e => throw e
         | None => ret tt
         end
     end)
    (fun error => throw error).

Definition handleSubscriptionExpiration (userId entitlementId : string) : M unit :=
  try_catch
    (let* (existingPermission, fetchError) :=
       store_select "*" userId entitlementId in
     match fetchError with
     | Some e => throw e
     | None =>
         let existingMetadata := existing_metadata existingPermission in
         let* expired_at := now in
         let updatedMetadata :=
           <["source" := JStr "revenuecat_webhook"]>
           (<["expired_at" := JStr expired_at]>
           (<["status" := JStr "expired"]> existingMetadata)) in
         let* error :=
           store_upsert
             {| p_profile_id := userId;
                p_permission_id := entitlementId;
                p_active := false;
                p_expires_at := read_column existingPermission expires_at;
                p_product_id := read_column existingPermission product_id;
                p_platform := read_column existingPermission platform;
                p_revenuecat_user_id := userId;
                p_metadata := updatedMetadata |} in
         match error with
         | Some e => throw e
         | None => ret tt
         end
     end)
    (fun error => throw error).

Definition handleBillingIssue (userId entitlementId : string) : M unit :=
  try_catch
    (let* (existingPermission, fetchError) :=
       store_select "*" userId entitlementId in
     match fetchError with
     | Some e => throw e
     | None =>
         match existingPermission with
         | None => ret tt
         | Some row =>
             let existingMetadata := existing_metadata (Some row) in
             let* billing_issue_detected_at := now in
             let updatedMetadata :=
               <["source" := JStr "revenuecat_webhook"]>
               (<["billing_issue_detected_at" := JStr billing_issue_detected_at]>
               (<["billing_issue" := JBool true]> existingMetadata)) in
             let* error :=
               store_upsert
                 {| p_profile_id := userId;
                    p_permission_id := entitlementId;
                    p_active := true;
                    p_expires_at := nullable (expires_at row);
                    p_product_id := nullable (product_id row);
                    p_platform := nullable (platform row);
                    p_revenuecat_user_id := userId;
                    p_metadata := updatedMetadata |} in
             match error with
             | Some e => throw e
             | None => ret tt
             end
         end
     end)
    (fun error => throw error).

Arguments handleSubscriptionActivation : simpl never.
Arguments handleSubscriptionCancellation : simpl never.
Arguments handleSubscriptionExpiration : simpl never.
Arguments handleBillingIssue : simpl never.
Arguments triggerPremiumInsightsGeneration : simpl never.

(** ** The request handler *)

Definition preflight : response :=
  {| status := 204;
     headers := [("Access-Control-Allow-Origin", "*");
                 ("Access-Control-Allow-Methods", "POST, OPTIONS");
                 ("Access-Control-Allow-Headers", "Content-Type, Authorization")];
     content := NoBody |}.

Definition method_not_allowed : response :=
  {| status := 405; headers := json_headers;
     content := ErrorBody "Method not allowed" |}.

Definition configuration_error : response :=
  {| status := 500; headers := json_headers;
     content := ErrorBody "Server configuration error" |}.

Definition unauthorized : response :=
  {| status := 401; headers := json_headers;
     content := ErrorBody "Unauthorized" |}.

Definition server_error : response :=
  {| status := 500; headers := json_headers;
     content := Failed "error" "Server error processing webhook" |}.

(** The success response; a [Response] built without a status is a 200. *)
Definition processed (eventType environment userId : string) : response :=
  {| status := 200; headers := json_headers;
     content := Processed eventType environment userId |}.

(** [authHeader !== EXPECTED_AUTH] *)
Definition differs (authHeader : option string) (expected : string) : bool :=
  match authHeader with
  | Some h => negb (String.eqb h expected)
  | None => true
  end.

(** [await req.json()] and [.event], then the first property read of it. *)
Definition parse_event (req : request) : M event :=
  match body req with
  | Some e => ret e
  | None => throw "request body is not an event envelope"
  end.

(** [eventData.store.toLowerCase()] *)
Definition store_toLowerCase (v : jsval) : M string :=
  match v with
  | JStr s => fun w => (Ok (toLowerCase (runtime w) s), w)
  | _ => throw "TypeError: eventData.store.toLowerCase is not a function"
  end.

Definition serve (req : request) : M response :=
  if String.eqb (method req) "OPTIONS" then ret preflight
  else if negb (String.eqb (method req) "POST") then ret method_not_allowed
  else
    try_catch
      (let authHeader := authorization req in
       let* EXPECTED_AUTH := getenv "REVENUECAT_AUTH_HEADER" in
       if falsy EXPECTED_AUTH then ret configuration_error
       else if falsy authHeader || differs authHeader (or_empty EXPECTED_AUTH)
       then ret unauthorized
       else
         let* SUPABASE_URL := getenv "SUPABASE_URL" in
         let* SUPABASE_SERVICE_ROLE_KEY := getenv "SUPABASE_SERVICE_ROLE_KEY" in
         let* supabase := createClient (or_empty SUPABASE_URL)
                                       (or_empty SUPABASE_SERVICE_ROLE_KEY) in
         let* eventData := parse_event req in
         let userId := original_app_user_id eventData in
         let eventType := type eventData in
         let productId := ev_product_id eventData in
         let environment := environment eventData in
         let expirationMs := expiration_at_ms eventData in
         let transactionId := transaction_id eventData in
         let* store := store_toLowerCase (store eventData) in
         let entitlementId := resolve_entitlement (entitlement_ids eventData) in
         let* _ :=
           match as_EventType eventType with
           | Some INITIAL_PURCHASE
           | Some RENEWAL
           | Some NON_RENEWING_PURCHASE =>
               handleSubscriptionActivation userId entitlementId productId store
                 (expiration_date expirationMs) transactionId environment
           | Some CANCELLATION =>
               handleSubscriptionCancellation userId entitlementId
                 (expiration_date expirationMs)
           | Some EXPIRATION =>
               handleSubscriptionExpiration userId entitlementId
           | Some PRODUCT_CHANGE =>
               handleSubscriptionActivation userId entitlementId productId store
                 (expiration_date expirationMs) transactionId environment
           | Some BILLING_ISSUE =>
               handleBillingIssue userId entitlementId
           | None => ret tt
           end in
         ret (processed eventType environment userId))
      (fun error => ret server_error).

(** * Vocabulary of the properties *)

(** The permission store answers every request without an error. *)
Definition store_answers (w : world) : Prop :=
  ∀ i, store_fault w i = None.

(** The request is a POST whose Authorization header is the configured
    secret. *)
Definition authenticated (req : request) (w : world) : Prop :=
  method req = "POST" ∧
  ∃ secret, secret ≠ "" ∧
    env w !! "REVENUECAT_AUTH_HEADER" = Some secret ∧
    authorization req = Some secret.

(** The address [createClient] parses for a store URL. *)
Definition auth_address (url : string) : string :=
  stripTrailingSlash url +:+ "/auth/v1".

(** The deployment provides the store's service key and a store URL that
    [createClient] accepts. *)
Definition client_configured (w : world) : Prop :=
  or_empty (env w !! "SUPABASE_URL") ≠ "" ∧
  or_empty (env w !! "SUPABASE_SERVICE_ROLE_KEY") ≠ "" ∧
  URL_parses (runtime w) (auth_address (or_empty (env w !! "SUPABASE_URL")))
  = true.

(** The handler the [switch] of [serve] selects for an event. *)
Definition selected_handler (e : event) (platform : string) : M unit :=
  let userId := original_app_user_id e in
  let entitlementId := resolve_entitlement (entitlement_ids e) in
  match as_EventType (type e) with
  | Some INITIAL_PURCHASE | Some RENEWAL | Some NON_RENEWING_PURCHASE
  | Some PRODUCT_CHANGE =>
      handleSubscriptionActivation userId entitlementId (ev_product_id e)
        platform (expiration_date (expiration_at_ms e)) (transaction_id e)
        (environment e)
  | Some CANCELLATION =>
      handleSubscriptionCancellation userId entitlementId
        (expiration_date (expiration_at_ms e))
  | Some EXPIRATION => handleSubscriptionExpiration userId entitlementId
  | Some BILLING_ISSUE => handleBillingIssue userId entitlementId
  | None => ret tt
  end.

(** The effects a computation adds to the trace. *)
Definition emitted {A} (m : M A) (w : world) : list effect :=
  drop (length (trace w)) (trace (snd (m w))).

(** The world after a lookup has been sent. *)
Definition looked_up (columns u e : string) (w : world) : world :=
  count_store_request (record_effect (StoreSelect columns u e) w).

(** The world after an upsert has been sent and applied. *)
Definition written (p : payload) (w : world) : world :=
  let k := (p_profile_id p, p_permission_id p) in
  set_db (<[k := upsert_row (db w !! k) p]> (db w))
         (count_store_request (record_effect (StoreUpsert p) w)).

(** What a lookup hands back as [data]. *)
Definition seen (u e : string) (w : world) : option permission :=
  match store_fault w (store_requests w) with
  | Some _ => None
  | None => db w !! (u, e)
  end.

(** [expiresAt.toISOString()] either yields a string or throws; the world
    is not touched. *)
Definition expiration_text (expiresAt : option Z) : outcome (option string) :=
  match expiresAt with
  | Some d =>
      if ISO.valid d then Ok (Some (ISO.format d))
      else Throw "RangeError: Invalid time value"
  | None => Ok None
  end.

(** A date the event can carry and [toISOString] can print. *)
Definition printable (expiresAt : option Z) : Prop :=
  ∀ d, expiresAt = Some d → ISO.valid d = true.

Definition activation_metadata
    (transactionId environment updated_at event_processed_at : string)
  : gmap string jsval :=
  <["event_processed_at" := JStr event_processed_at]>
  (<["source" := JStr "revenuecat_webhook"]>
  (<["status" := JStr "active"]>
  (<["updated_at" := JStr updated_at]>
  (<["environment" := JStr environment]>
  (<["transaction_id" := JStr transactionId]> ∅))))).

Definition activation_payload
    (userId entitlementId productId platform : string)
    (expirationString : option string)
    (transactionId environment updated_at event_processed_at : string)
  : payload :=
  {| p_profile_id := userId;
     p_permission_id := entitlementId;
     p_active := true;
     p_expires_at := nullable expirationString;
     p_product_id := Text productId;
     p_platform := Text platform;
     p_revenuecat_user_id := userId;
     p_metadata :=
       activation_metadata transactionId environment updated_at
         event_processed_at |}.

(** The row an activation leaves in the table. *)
Definition activation_row
    (userId entitlementId productId platform : string)
    (expirationString : option string)
    (transactionId environment updated_at event_processed_at : string)
  : permission :=
  {| profile_id := userId;
     permission_id := entitlementId;
     active := true;
     expires_at := expirationString;
     product_id := Some productId;
     platform := Some platform;
     revenuecat_user_id := Some userId;
     metadata :=
       Some (activation_metadata transactionId environment updated_at
               event_processed_at) |}.

(** The world in which an activation sends its upsert. *)
Definition activation_ready (u e : string) (w : world) : world :=
  count_clock_read (count_clock_read (looked_up "active, created_at" u e w)).

Definition cancellation_metadata (existing : gmap string jsval)
    (cancelled_at : string) : gmap string jsval :=
  <["source" := JStr "revenuecat_webhook"]>
  (<["cancelled_at" := JStr cancelled_at]>
  (<["status" := JStr "cancelled"]> existing)).

Definition cancellation_payload (userId entitlementId : string)
    (expirationString : option string) (existing : option permission)
    (cancelled_at : string) : payload :=
  {| p_profile_id := userId;
     p_permission_id := entitlementId;
     p_active := true;
     p_expires_at := nullable expirationString;
     p_product_id := read_column existing product_id;
     p_platform := read_column existing platform;
     p_revenuecat_user_id := userId;
     p_metadata :=
       cancellation_metadata (existing_metadata existing) cancelled_at |}.

Definition expiration_metadata (existing : gmap string jsval)
    (expired_at : string) : gmap string jsval :=
  <["source" := JStr "revenuecat_webhook"]>
  (<["expired_at" := JStr expired_at]>
  (<["status" := JStr "expired"]> existing)).

Definition expiration_payload (userId entitlementId : string)
    (existing : option permission) (expired_at : string) : payload :=
  {| p_profile_id := userId;
     p_permission_id := entitlementId;
     p_active := false;
     p_expires_at := read_column existing expires_at;
     p_product_id := read_column existing product_id;
     p_platform := read_column existing platform;
     p_revenuecat_user_id := userId;
     p_metadata :=
       expiration_metadata (existing_metadata existing) expired_at |}.

Definition billing_metadata (existing : gmap string jsval)
    (detected_at : string) : gmap string jsval :=
  <["source" := JStr "revenuecat_webhook"]>
  (<["billing_issue_detected_at" := JStr detected_at]>
  (<["billing_issue" := JBool true]> existing)).

Definition billing_payload (userId entitlementId : string)
    (row : permission) (detected_at : string) : payload :=
  {| p_profile_id := userId;
     p_permission_id := entitlementId;
     p_active := true;
     p_expires_at := nullable (expires_at row);
     p_product_id := nullable (product_id row);
     p_platform := nullable (platform row);
     p_revenuecat_user_id := userId;
     p_metadata :=
       billing_metadata (existing_metadata (Some row)) detected_at |}.

Definition sample_env : gmap string string :=
  <["REVENUECAT_AUTH_HEADER" := "whsec_7f3a"]>
  (<["SUPABASE_URL" := "https://golf.supabase.co"]>
  (<["SUPABASE_SERVICE_ROLE_KEY" := "service-role-key"]> ∅)).

(** The runtime as far as the samples need it.  Every address under the
    sample deployment's origin parses; the samples carry no character
    beyond U+00FF, so their case mapping is never the runtime's. *)
Definition sample_runtime : builtins :=
  {| URL_parses := String.prefix "https://golf.supabase.co/";
     unicode_toLowerCase := λ s, s |}.

(** A clock that advances one second per reading from
    2023-11-14T22:13:20Z. *)
Definition sample_clock (i : nat) : string :=
  ISO.format (1700000000000 + 1000 * Z.of_nat i).

Definition sample_world (table : gmap (string * string) permission) : world :=
  {| runtime := sample_runtime;
     db := table; env := sample_env; clock := sample_clock; clock_reads := 0;
     store_fault := λ _, None; store_requests := 0;
     insights_reply := Throw "connection refused"; trace := [] |}.

Definition sample_event (eventType : string) (storeField : jsval) : event :=
  {| type := eventType;
     original_app_user_id := "u1";
     ev_product_id := "p1";
     entitlement_ids := Some ["product_a"];
     environment := "PRODUCTION";
     expiration_at_ms := Some 1893456000000;
     transaction_id := "t1";
     store := storeField |}.

Definition sample_post (authHeader : option string) (e : event) : request :=
  {| method := "POST"; authorization := authHeader; body := Some e |}.

(** The seven kinds of [EventType]. *)
Definition known_event_types : list string :=
  ["INITIAL_PURCHASE"; "RENEWAL"; "CANCELLATION"; "EXPIRATION";
   "PRODUCT_CHANGE"; "BILLING_ISSUE"; "NON_RENEWING_PURCHASE"].

(** A computation that leaves no inactive row that was not there before. *)
Definition writes_only_active (m : M unit) : Prop :=
  ∀ w k row,
    db (snd (m w)) !! k = Some row → active row = false →
    db w !! k = Some row.

Definition sample_row : permission :=
  {| profile_id := "u1";
     permission_id := "product_a";
     active := true;
     expires_at := Some "2030-01-01T00:00:00.000Z";
     product_id := Some "p1";
     platform := Some "app_store";
     revenuecat_user_id := Some "u1";
     metadata :=
       Some (<["billing_issue" := JBool true]>
               (activation_metadata "t1" "PRODUCTION"
                  "2023-11-14T22:13:18.000Z" "2023-11-14T22:13:18.000Z")) |}.

Definition sample_table : gmap (string * string) permission :=
  {[ ("u1", "product_a") := sample_row ]}.

(** Events handled by [handleSubscriptionActivation]. *)
Definition activation_event_types : list string :=
  ["INITIAL_PURCHASE"; "RENEWAL"; "NON_RENEWING_PURCHASE"; "PRODUCT_CHANGE"].

(** The metadata keys each handler sets. *)
Definition cancellation_stamps : list string :=
  ["status"; "cancelled_at"; "source"].
Definition expiration_stamps : list string :=
  ["status"; "expired_at"; "source"].
Definition billing_stamps : list string :=
  ["billing_issue"; "billing_issue_detected_at"; "source"].
Definition activation_stamps : list string :=
  ["transaction_id"; "environment"; "updated_at"; "status"; "source";
   "event_processed_at"].

Definition with_insights_reply (reply : outcome http_response) (w : world)
  : world :=
  {| runtime := runtime w;
     db := db w; env := env w; clock := clock w; clock_reads := clock_reads w;
     store_fault := store_fault w; store_requests := store_requests w;
     insights_reply := reply; trace := trace w |}.

(** A world in which the store has an active premium record for u1 and
    fails its next request, the lookup, with a transient error; later
    requests are answered. *)
Definition lookup_fails_world : world :=
  {| runtime := sample_runtime;
     db := sample_table; env := sample_env; clock := sample_clock;
     clock_reads := 0;
     store_fault := λ i, match i with
                         | O => Some "FetchError: connection reset"
                         | S _ => None
                         end;
     store_requests := 0;
     insights_reply := Throw "connection refused"; trace := [] |}.

(** A computation that never starts the trigger. *)
Definition never_triggers (m : M unit) : Prop :=
  ∀ w u, InsightsTrigger u ∉ emitted m w.

Definition EventType_name (k : EventType) : string :=
  match k with
  | INITIAL_PURCHASE => "INITIAL_PURCHASE"
  | RENEWAL => "RENEWAL"
  | CANCELLATION => "CANCELLATION"
  | EXPIRATION => "EXPIRATION"
  | PRODUCT_CHANGE => "PRODUCT_CHANGE"
  | BILLING_ISSUE => "BILLING_ISSUE"
  | NON_RENEWING_PURCHASE => "NON_RENEWING_PURCHASE"
  end.

(** Sample requests and deployments. *)
Definition fresh_deployment : world := sample_world ∅.
Definition subscribed_deployment : world := sample_world sample_table.
Definition wrong_secret_post : request :=
  sample_post (Some "wrong-secret") (sample_event "EXPIRATION" (JStr "APP_STORE")).
Definition storeless_event : event := sample_event "CANCELLATION" JUndefined.
Definition storeless_post : request :=
  sample_post (Some "whsec_7f3a") storeless_event.
Definition transfer_event : event := sample_event "TRANSFER" (JStr "PLAY_STORE").
Definition transfer_post : request :=
  sample_post (Some "whsec_7f3a") transfer_event.
Definition billing_event : event :=
  sample_event "BILLING_ISSUE" (JStr "APP_STORE").
Definition billing_post : request :=
  sample_post (Some "whsec_7f3a") billing_event.
Definition purchase_event : event :=
  sample_event "INITIAL_PURCHASE" (JStr "APP_STORE").
Definition purchase_post : request :=
  sample_post (Some "whsec_7f3a") purchase_event.
Definition renewal_event : event := sample_event "RENEWAL" (JStr "APP_STORE").
Definition renewal_post : request :=
  sample_post (Some "whsec_7f3a") renewal_event.
Definition unavailable_reply : outcome http_response :=
  Ok {| ok := false; text_body := Ok "insights unavailable";
        json_body := Throw "SyntaxError" |}.

(** The purchase of scenario 1, as [serve] hands it to the activation
    handler, and a renewal of it with a new transaction. *)
Definition sample_purchase : M unit :=
  handleSubscriptionActivation "u1" "product_a" "p1" "app_store"
    (Some 1893456000000) "t1" "PRODUCTION".
Definition sample_renewal : M unit :=
  handleSubscriptionActivation "u1" "product_a" "p1" "app_store"
    (Some 1893456000000) "t2" "PRODUCTION".
Definition sample_cancellation : M unit :=
  handleSubscriptionCancellation "u1" "product_a" (Some 1900000000000).

(** ** Vocabulary of the further properties *)

(** The address and credential of the insights call. *)
Definition insights_endpoint (w : world) : string :=
  or_empty (env w !! "SUPABASE_URL")
    +:+ "/functions/v1/analyze-golf-performance".

Definition insights_bearer (w : world) : string :=
  "Bearer " +:+ or_empty (env w !! "SUPABASE_SERVICE_ROLE_KEY").

(** What a started trigger adds to the trace. *)
Definition insights_requests (u : string) (w : world) : list effect :=
  InsightsTrigger u ::
  (if String.eqb (or_empty (env w !! "SUPABASE_URL")) "" then []
   else [InsightsPost (insights_endpoint w) (insights_bearer w) u
           "purchase_webhook"]).

(** The world after an upsert has been sent and refused. *)
Definition refused (p : payload) (w : world) : world :=
  count_store_request (record_effect (StoreUpsert p) w).

(** A payload written for the key [(u, e)]. *)
Definition keyed (u e : string) (p : payload) : Prop :=
  p_profile_id p = u ∧ p_permission_id p = e ∧ p_revenuecat_user_id p = u.

(** The ways a handler for the key [(u, e)] can run, as its outcome, the
    table it leaves and the requests it sends: nothing sent; only the
    lookup; lookup and a refused upsert; lookup and an applied upsert,
    after which the trigger may be started for the premium entitlement. *)
Inductive run_shape (u e : string) (w : world)
  : outcome unit → gmap (string * string) permission → list effect → Prop :=
| run_silent o : run_shape u e w o (db w) []
| run_lookup o c : run_shape u e w o (db w) [StoreSelect c u e]
| run_refused err c p :
    keyed u e p →
    run_shape u e w (Throw err) (db w) [StoreSelect c u e; StoreUpsert p]
| run_written c p rest :
    keyed u e p →
    (rest = [] ∨
     e = "product_a" ∧ p_active p = true ∧ rest = insights_requests u w) →
    run_shape u e w (Ok tt)
      (<[(u, e) := upsert_row (db w !! (u, e)) p]> (db w))
      (StoreSelect c u e :: StoreUpsert p :: rest).

(** Rows sit under the key their own columns name, and carry the user id
    as the billing system's id. *)
Definition rows_keyed (table : gmap (string * string) permission) : Prop :=
  ∀ k row, table !! k = Some row →
    k = (profile_id row, permission_id row) ∧
    revenuecat_user_id row = Some (profile_id row).

(** The key an event is about. *)
Definition event_key (e : event) : string * string :=
  (original_app_user_id e, resolve_entitlement (entitlement_ids e)).

(** The answers of [serve] to requests that do not pass its gate. *)
Definition gate_responses : list response :=
  [preflight; method_not_allowed; configuration_error; unauthorized].

(** A world in which the store has an active premium record for u1,
    answers the next request, the lookup, and refuses the one after it,
    the upsert. *)
Definition write_fails_world : world :=
  {| runtime := sample_runtime;
     db := sample_table; env := sample_env; clock := sample_clock;
     clock_reads := 0;
     store_fault := λ i, match i with
                         | 1%nat => Some "statement timeout"
                         | _ => None
                         end;
     store_requests := 0;
     insights_reply := Throw "connection refused"; trace := [] |}.

(** A deployment whose store URL is set to a name that is no URL. *)
Definition misaddressed_deployment : world :=
  {| runtime := sample_runtime;
     db := sample_table;
     env := <["SUPABASE_URL" := "golf"]> sample_env;
     clock := sample_clock; clock_reads := 0;
     store_fault := λ _, None; store_requests := 0;
     insights_reply := Throw "connection refused"; trace := [] |}.

Definition get_request : request :=
  {| method := "GET"; authorization := Some "whsec_7f3a";
     body := Some renewal_event |}.

(** An event with its expiration left out, and a request carrying another
    event. *)
Definition without_expiration (e : event) : event :=
  {| type := type e;
     original_app_user_id := original_app_user_id e;
     ev_product_id := ev_product_id e;
     entitlement_ids := entitlement_ids e;
     environment := environment e;
     expiration_at_ms := None;
     transaction_id := transaction_id e;
     store := store e |}.

Definition with_event (req : request) (e : event) : request :=
  {| method := method req; authorization := authorization req;
     body := Some e |}.

(** Events whose handlers read the record before writing it and stop at a
    failed lookup. *)
Definition guarded_event_types : list string :=
  ["CANCELLATION"; "EXPIRATION"; "BILLING_ISSUE"].

(** Sample events with an expiration no [Date] can hold, and an empty
    deployment whose store fails the lookup. *)
Definition unprintable_cancellation : event :=
  {| type := "CANCELLATION";
     original_app_user_id := "u1";
     ev_product_id := "p1";
     entitlement_ids := Some ["product_a"];
     environment := "PRODUCTION";
     expiration_at_ms := Some 10000000000000000;
     transaction_id := "t1";
     store := JStr "APP_STORE" |}.

Definition unprintable_post : request :=
  sample_post (Some "whsec_7f3a") unprintable_cancellation.

Definition expiration_post : request :=
  sample_post (Some "whsec_7f3a") (sample_event "EXPIRATION" (JStr "APP_STORE")).

Definition bodyless_post : request :=
  {| method := "POST"; authorization := Some "whsec_7f3a"; body := None |}.

(** ** The insights function: [analyze-golf-performance/index.ts] *)

(** [supabase.from("user_permissions").select("*")
      .eq("profile_id", u).eq("permission_id", e).eq("active", true)]:
    the pair [{ data, error }], [data] the list of matching rows.  The
    trace records the lookup's columns and key; the filter on [active]
    shows in the rows handed back. *)
Definition store_select_active (u e : string)
  : M (option (list permission) * option string) :=
  fun w =>
    let w' := count_store_request (record_effect (StoreSelect "*" u e) w) in
    match store_fault w (store_requests w) with
    | Some err => (Ok (None, Some err), w')
    | None =>
        (Ok (Some (match db w !! (u, e) with
                   | Some row => if active row then [row] else []
                   | None => []
                   end), None), w')
    end.

(** The product permission check of the insights function: the value of
    [hasProductA] after its [try] block. *)
Definition hasProductA (userId : string) : M bool :=
  try_catch
    (let* (permissions, permissionsError) :=
       store_select_active userId "product_a" in
     match permissionsError with
     | Some _ => ret false
     | None =>
         ret (match permissions with
              | Some rows => (0 <? length rows)%nat
              | None => false
              end)
     end)
    (fun permissionError => ret false).

(** The members of [Object.prototype] as ECMAScript defines them (Annex B
    included).  An object literal inherits them, so reading one through
    [variantMap[variant]] yields a function or an object, not
    [undefined]. *)
Definition inherited_members : list string :=
  ["constructor"; "__defineGetter__"; "__defineSetter__"; "hasOwnProperty";
   "__lookupGetter__"; "__lookupSetter__"; "isPrototypeOf";
   "propertyIsEnumerable"; "toString"; "valueOf"; "__proto__";
   "toLocaleString"].

(** The own properties of [variantMap]. *)
Definition variantMap (key : string) : option string :=
  if String.eqb key "filled" then Some "highlight"
  else if String.eqb key "outlined" then Some "standard"
  else if String.eqb key "alert" then Some "alert"
  else if String.eqb key "success" then Some "success"
  else if String.eqb key "highlight" then Some "highlight"
  else if String.eqb key "standard" then Some "standard"
  else None.

(** What [mapCardVariantToUi] returns: a variant name, or the inherited
    member it read. *)
Inductive ui_variant :=
| Variant (name : string)
| Inherited (member : string).

(** [variantMap[variant] || "standard"] for a variant that is a JSON
    primitive.  [prototype] lists the members that the runtime's
    [Object.prototype] defines (a runtime may remove some, as Deno does
    with [__proto__]).  A value that is not a string is turned into a
    property key ("undefined", "null", "true", a numeral) that the map does
    not have. *)
Definition mapCardVariantToUi (prototype : list string) (variant : jsval)
  : ui_variant :=
  match variant with
  | JStr key =>
      match variantMap key with
      | Some ui => Variant ui
      | None =>
          if bool_decide (key ∈ prototype) then Inherited key
          else Variant "standard"
      end
  | _ => Variant "standard"
  end.

(** The variants the interface renders. *)
Definition ui_variants : list string :=
  ["highlight"; "standard"; "alert"; "success"].

(** [ToBoolean] on the values of a parsed request body. *)
Definition truthy (v : jsval) : bool :=
  match v with
  | JUndefined | JNull => false
  | JBool b => b
  | JNum n => negb (n =? 0)
  | JStr s => negb (String.eqb s "")
  end.

(** The rest of [s] after [pattern], when [s] starts with it. *)
Fixpoint strip_prefix (pattern s : string) : option string :=
  match pattern, s with
  | EmptyString, _ => Some s
  | String a p, String b t => if Ascii.eqb a b then strip_prefix p t else None
  | String _ _, EmptyString => None
  end.

(** [s.replace(pattern, replacement)] for a string pattern: the first
    occurrence is replaced. *)
Fixpoint string_replace (pattern replacement s : string) : string :=
  match strip_prefix pattern s with
  | Some rest => replacement +:+ rest
  | None =>
      match s with
      | EmptyString => EmptyString
      | String c t => String c (string_replace pattern replacement t)
      end
  end.

(** What [supabase.auth.getUser(token)] resolves to: [data?.user?.id] and
    [error?.message]. *)
Record auth_reply := {
  auth_user : option string;
  auth_error : option string
}.

(** How the insights function determines the user it works for: from the
    token of the [Authorization] header, with the [userId] of the request
    body as fallback.  [getUser] is the authentication service. *)
Definition resolve_userId (getUser : string → outcome auth_reply)
    (authHeader : option string) (requestBody_userId : jsval)
  : outcome jsval :=
  let userId :=
    match authHeader with
    | Some header =>
        if String.eqb header "" then requestBody_userId
        else
          match getUser (string_replace "Bearer " "" header) with
          | Ok reply =>
              match auth_error reply with
              | Some _ => requestBody_userId
              | None =>
                  match auth_user reply with
                  | Some id => JStr id
                  | None => JUndefined
                  end
              end
          | Throw _ => requestBody_userId
          end
    | None => requestBody_userId
    end in
  if truthy userId then Ok userId
  else Throw "Unable to determine user ID. Please ensure you're logged in.".

(** The authentication service does not accept the token: it reports an
    error or throws. *)
Definition token_rejected (o : outcome auth_reply) : Prop :=
  match o with
  | Ok reply => auth_error reply ≠ None
  | Throw _ => True
  end.

(** An authentication service that knows no user for any token. *)
Definition no_session (token : string) : outcome auth_reply :=
  Ok {| auth_user := None; auth_error := Some "invalid JWT" |}.

(** An authentication service that answers without user and without
    error. *)
Definition empty_session (token : string) : outcome auth_reply :=
  Ok {| auth_user := None; auth_error := None |}.

(** * Properties *)

(** ** Printing dates *)

Example format_scenario_expiry :
  ISO.format 1893456000000 = "2030-01-01T00:00:00.000Z".
Proof. vm_compute. reflexivity. Qed.

Example format_epoch : ISO.format 0 = "1970-01-01T00:00:00.000Z".
Proof. vm_compute. reflexivity. Qed.

Example format_before_epoch : ISO.format (-1) = "1969-12-31T23:59:59.999Z".
Proof. vm_compute. reflexivity. Qed.

Example format_leap_day :
  ISO.format 1709210096789 = "2024-02-29T12:34:56.789Z".
Proof. vm_compute. reflexivity. Qed.

Example format_latest :
  ISO.format ISO.max_time = "+275760-09-13T00:00:00.000Z".
Proof. vm_compute. reflexivity. Qed.

Example format_earliest :
  ISO.format (- ISO.max_time) = "-271821-04-20T00:00:00.000Z".
Proof. vm_compute. reflexivity. Qed.

Example lower_store (r : builtins) : toLowerCase r "APP_STORE" = "app_store".
Proof. reflexivity. Qed.

Example lower_latin (r : builtins) :
  toLowerCase r "ÀPP_Store ×Þß" = "àpp_store ×þß".
Proof. reflexivity. Qed.

Example strip_slash :
  stripTrailingSlash "https://golf.supabase.co/" = "https://golf.supabase.co"
  ∧ stripTrailingSlash "https://golf.supabase.co//" = "https://golf.supabase.co/"
  ∧ stripTrailingSlash "a/b" = "a/b".
Proof. repeat split. Qed.

(** ** Running conditions *)

(** ** The gate of [serve] *)

Lemma eqb_refl_true (s : string) : String.eqb s s = true.
Proof. apply String.eqb_refl. Qed.

Lemma eqb_false_of_ne (s t : string) : s ≠ t → String.eqb s t = false.
Proof. intros H. apply String.eqb_neq. exact H. Qed.

Lemma falsy_configured (s : string) : s ≠ "" → falsy (Some s) = false.
Proof. intros H. simpl. apply eqb_false_of_ne. exact H. Qed.

Lemma differs_spec (h : option string) (s : string) :
  differs h s = false ↔ h = Some s.
Proof.
  destruct h as [h|]; simpl; [|split; discriminate].
  rewrite negb_false_iff, String.eqb_eq. split; congruence.
Qed.

(** A POST that fails the header check is answered 401 in the same world. *)
Lemma serve_unauthorized (req : request) (w : world) (secret : string) :
  method req = "POST" →
  env w !! "REVENUECAT_AUTH_HEADER" = Some secret →
  secret ≠ "" →
  authorization req ≠ Some secret →
  serve req w = (Ok unauthorized, w).
Proof.
  intros Hm He Hs Ha.
  unfold serve, try_catch, bind, getenv. rewrite Hm. simpl.
  rewrite He, (falsy_configured _ Hs). simpl or_empty.
  destruct (falsy (authorization req)); [reflexivity|]. simpl.
  destruct (differs (authorization req) secret) eqn:Hd; [reflexivity|].
  apply differs_spec in Hd. contradiction.
Qed.

(** A POST to a deployment without the expected secret is answered 500 in
    the same world. *)
Lemma serve_unconfigured (req : request) (w : world) :
  method req = "POST" →
  falsy (env w !! "REVENUECAT_AUTH_HEADER") = true →
  serve req w = (Ok configuration_error, w).
Proof.
  intros Hm He.
  unfold serve, try_catch, bind, getenv. rewrite Hm. simpl.
  rewrite He. reflexivity.
Qed.

(** Past the gate, the request is answered from the selected handler's
    outcome. *)
Lemma serve_dispatch (req : request) (w : world) (e : event) (s : string) :
  authenticated req w →
  client_configured w →
  body req = Some e →
  store e = JStr s →
  serve req w =
    match selected_handler e (toLowerCase (runtime w) s) w with
    | (Ok _, w') =>
        (Ok (processed (type e) (environment e) (original_app_user_id e)), w')
    | (Throw _, w') => (Ok server_error, w')
    end.
Proof.
  intros (Hm & secret & Hs & He & Ha) (Hu & Hk & Hp) Hb Hst.
  unfold serve, try_catch, bind, getenv, parse_event, createClient, new_URL,
    selected_handler.
  rewrite Hm. simpl.
  rewrite He, Ha. simpl.
  rewrite (eqb_false_of_ne _ _ Hs). simpl.
  rewrite eqb_refl_true. simpl.
  rewrite (eqb_false_of_ne _ _ Hu), (eqb_false_of_ne _ _ Hk).
  fold (auth_address (or_empty (env w !! "SUPABASE_URL"))). rewrite Hp.
  rewrite Hb. unfold ret. rewrite Hst. simpl.
  match goal with
  | |- _ = (let (_, _) := ?run in _) => destruct run as [[?|?] ?]
  end; reflexivity.
Qed.

(** ** Store requests and the clock *)

Lemma store_select_answered columns u e w :
  store_fault w (store_requests w) = None →
  store_select columns u e w = (Ok (db w !! (u, e), None), looked_up columns u e w).
Proof. intros H. unfold store_select. rewrite H. reflexivity. Qed.

Lemma store_select_failed columns u e w err :
  store_fault w (store_requests w) = Some err →
  store_select columns u e w = (Ok (None, Some err), looked_up columns u e w).
Proof. intros H. unfold store_select. rewrite H. reflexivity. Qed.

Lemma store_upsert_answered p w :
  store_fault w (store_requests w) = None →
  store_upsert p w = (Ok None, written p w).
Proof. intros H. unfold store_upsert. rewrite H. reflexivity. Qed.

Lemma store_upsert_failed p w err :
  store_fault w (store_requests w) = Some err →
  store_upsert p w =
    (Ok (Some err), count_store_request (record_effect (StoreUpsert p) w)).
Proof. intros H. unfold store_upsert. rewrite H. reflexivity. Qed.

Lemma expiration_string_run expiresAt w :
  expiration_string expiresAt w =
    (expiration_text expiresAt, w).
Proof.
  unfold expiration_string, expiration_text, toISOString, bind, ret, throw.
  destruct expiresAt as [d|]; [|reflexivity].
  destruct (ISO.valid d); reflexivity.
Qed.

Lemma expiration_text_printable expiresAt :
  printable expiresAt →
  expiration_text expiresAt = Ok (ISO.format <$> expiresAt).
Proof.
  intros H. destruct expiresAt as [d|]; [|reflexivity].
  simpl. rewrite (H d eq_refl). reflexivity.
Qed.

Lemma printable_sample (ms : Z) : ISO.valid ms = true → printable (Some ms).
Proof. intros H d [= <-]. exact H. Qed.

(** ** The insights trigger *)

(** The trigger never throws, whatever the endpoint does, and touches
    nothing but the trace. *)
Lemma trigger_swallows userId w :
  ∃ posts,
    triggerPremiumInsightsGeneration userId w =
      (Ok tt,
       {| runtime := runtime w;
          db := db w; env := env w; clock := clock w;
          clock_reads := clock_reads w; store_fault := store_fault w;
          store_requests := store_requests w;
          insights_reply := insights_reply w;
          trace := trace w ++ InsightsTrigger userId :: posts |}) ∧
    ∀ u, InsightsTrigger u ∉ posts.
Proof.
  unfold triggerPremiumInsightsGeneration, try_catch, bind, note, getenv,
    fetch, await, ret, throw.
  cbn [record_effect env db insights_reply trace].
  destruct (String.eqb (or_empty (env w !! "SUPABASE_URL")) "").
  - exists []. split; [reflexivity|]. intros u Hin. inversion Hin.
  - exists [InsightsPost
                (or_empty (env w !! "SUPABASE_URL") +:+
                 "/functions/v1/analyze-golf-performance")
                ("Bearer " +:+
                 or_empty (env w !! "SUPABASE_SERVICE_ROLE_KEY"))
                userId "purchase_webhook"].
    split.
    + unfold record_effect; cbn [db env clock clock_reads store_fault store_requests insights_reply trace].
      rewrite <- !app_assoc. cbn [app].
      destruct (insights_reply w) as [r|err].
      * destruct (ok r); cbn [negb].
        -- destruct (json_body r) as [[id|]|]; reflexivity.
        -- destruct (text_body r); reflexivity.
      * reflexivity.
    + intros u Hin. apply list_elem_of_singleton in Hin. discriminate.
Qed.

Lemma trigger_db userId w :
  db (snd (triggerPremiumInsightsGeneration userId w)) = db w.
Proof. destruct (trigger_swallows userId w) as (posts & -> & _). reflexivity. Qed.

Lemma trigger_returns userId w :
  fst (triggerPremiumInsightsGeneration userId w) = Ok tt.
Proof. destruct (trigger_swallows userId w) as (posts & -> & _). reflexivity. Qed.

(** ** Activation *)

Lemma write_nullable old s : write_column old (nullable s) = s.
Proof. destruct s; reflexivity. Qed.

Lemma upsert_activation_row old u e p pl es tx en t1 t2 :
  upsert_row old (activation_payload u e p pl es tx en t1 t2) =
  activation_row u e p pl es tx en t1 t2.
Proof.
  unfold upsert_row, activation_row. simpl. rewrite write_nullable.
  reflexivity.
Qed.

(** When the expiration prints and the store takes the write, the
    activation returns; the trigger is started exactly when the entitlement
    is the premium one and the lookup showed no active row. *)
Lemma activation_run u e p pl exp tx en w es :
  expiration_text exp = Ok es →
  store_fault w (S (store_requests w)) = None →
  let pay :=
    activation_payload u e p pl es tx en
      (clock w (clock_reads w)) (clock w (S (clock_reads w))) in
  let w1 := written pay (activation_ready u e w) in
  handleSubscriptionActivation u e p pl exp tx en w =
    (Ok tt,
     if String.eqb e "product_a" && is_new (seen u e w)
     then snd (triggerPremiumInsightsGeneration u w1)
     else w1).
Proof.
  intros He Hf pay w1.
  unfold handleSubscriptionActivation, try_catch, bind.
  rewrite expiration_string_run, He.
  unfold seen, store_select.
  destruct (store_fault w (store_requests w)) eqn:Hl; cbn [now fst snd];
    (rewrite store_upsert_answered; [|exact Hf]);
    fold (looked_up "active, created_at" u e w);
    fold (activation_ready u e w);
    change (written _ (activation_ready u e w)) with w1;
    cbn [is_new].
  - rewrite andb_true_r. destruct (String.eqb e "product_a"); reflexivity.
  - destruct (db w !! (u, e)) as [row|]; cbn [is_new];
      destruct (String.eqb e "product_a" && _); reflexivity.
Qed.

(** On every path, failing ones included, an activation leaves the table
    as it was or with its own row upserted. *)
Lemma activation_db_cases u e p pl exp tx en w :
  let w' := snd (handleSubscriptionActivation u e p pl exp tx en w) in
  db w' = db w ∨
  ∃ es t1 t2,
    db w' = <[(u, e) := activation_row u e p pl es tx en t1 t2]> (db w).
Proof.
  intros w'. subst w'.
  destruct (expiration_text exp) as [es|err] eqn:He.
  - destruct (store_fault w (S (store_requests w))) as [err|] eqn:Hf.
    + left.
      unfold handleSubscriptionActivation, try_catch, bind.
      rewrite expiration_string_run, He.
      unfold store_select.
      destruct (store_fault w (store_requests w)); cbn [now fst snd];
        (erewrite store_upsert_failed; [|exact Hf]); reflexivity.
    + right. exists es, (clock w (clock_reads w)), (clock w (S (clock_reads w))).
      rewrite (activation_run u e p pl exp tx en w es He Hf).
      cbn [snd].
      destruct (String.eqb e "product_a" && is_new (seen u e w));
        rewrite ?trigger_db; cbn; rewrite upsert_activation_row; reflexivity.
  - left.
    unfold handleSubscriptionActivation, try_catch, bind.
    rewrite expiration_string_run, He. reflexivity.
Qed.

(** ** Cancellation *)

Lemma write_read_column (old : option permission) col :
  write_column (old ≫= col) (read_column old col) = old ≫= col.
Proof.
  destruct old as [r|]; simpl; [|reflexivity].
  destruct (col r); reflexivity.
Qed.

Lemma cancellation_run u e exp w es :
  expiration_text exp = Ok es →
  store_fault w (store_requests w) = None →
  store_fault w (S (store_requests w)) = None →
  handleSubscriptionCancellation u e exp w =
    (Ok tt,
     written
       (cancellation_payload u e es (db w !! (u, e)) (clock w (clock_reads w)))
       (count_clock_read (looked_up "*" u e w))).
Proof.
  intros He Hl Hf.
  unfold handleSubscriptionCancellation, try_catch, bind.
  rewrite expiration_string_run, He.
  rewrite store_select_answered; [|exact Hl].
  cbn [now fst snd].
  rewrite store_upsert_answered; [|exact Hf].
  reflexivity.
Qed.

Lemma cancellation_db_cases u e exp w :
  let w' := snd (handleSubscriptionCancellation u e exp w) in
  db w' = db w ∨
  ∃ p, p_active p = true ∧
    db w' = <[(u, e) := upsert_row (db w !! (u, e)) p]> (db w).
Proof.
  intros w'. subst w'.
  unfold handleSubscriptionCancellation, try_catch, bind.
  rewrite expiration_string_run.
  destruct (expiration_text exp) as [es|err]; [|left; reflexivity].
  unfold store_select.
  destruct (store_fault w (store_requests w)); [left; reflexivity|].
  cbn [now fst snd]. unfold store_upsert.
  cbn [store_fault store_requests count_clock_read count_store_request
       record_effect].
  destruct (store_fault w (S (store_requests w))); [left; reflexivity|].
  right. eexists. split; [|reflexivity]. reflexivity.
Qed.

(** ** Expiration *)

Lemma expiration_run u e w :
  store_fault w (store_requests w) = None →
  store_fault w (S (store_requests w)) = None →
  handleSubscriptionExpiration u e w =
    (Ok tt,
     written
       (expiration_payload u e (db w !! (u, e)) (clock w (clock_reads w)))
       (count_clock_read (looked_up "*" u e w))).
Proof.
  intros Hl Hf.
  unfold handleSubscriptionExpiration, try_catch, bind.
  rewrite store_select_answered; [|exact Hl].
  cbn [now fst snd].
  rewrite store_upsert_answered; [|exact Hf].
  reflexivity.
Qed.

(** ** Billing issue *)

Lemma billing_run_absent u e w :
  store_fault w (store_requests w) = None →
  db w !! (u, e) = None →
  handleBillingIssue u e w = (Ok tt, looked_up "*" u e w).
Proof.
  intros Hl Hn.
  unfold handleBillingIssue, try_catch, bind.
  rewrite store_select_answered; [|exact Hl].
  rewrite Hn. reflexivity.
Qed.

Lemma billing_run_present u e w row :
  store_fault w (store_requests w) = None →
  store_fault w (S (store_requests w)) = None →
  db w !! (u, e) = Some row →
  handleBillingIssue u e w =
    (Ok tt,
     written (billing_payload u e row (clock w (clock_reads w)))
       (count_clock_read (looked_up "*" u e w))).
Proof.
  intros Hl Hf Hr.
  unfold handleBillingIssue, try_catch, bind.
  rewrite store_select_answered; [|exact Hl].
  rewrite Hr. cbn [now fst snd].
  rewrite store_upsert_answered; [|exact Hf].
  reflexivity.
Qed.

Lemma billing_db_cases u e w :
  let w' := snd (handleBillingIssue u e w) in
  db w' = db w ∨
  ∃ p, p_active p = true ∧
    db w' = <[(u, e) := upsert_row (db w !! (u, e)) p]> (db w).
Proof.
  intros w'. subst w'.
  unfold handleBillingIssue, try_catch, bind, store_select.
  destruct (store_fault w (store_requests w)); [left; reflexivity|].
  destruct (db w !! (u, e)) as [row|] eqn:Hr; [|left; reflexivity].
  cbn [now fst snd]. unfold store_upsert.
  cbn [store_fault store_requests count_clock_read count_store_request
       record_effect].
  destruct (store_fault w (S (store_requests w))); [left; reflexivity|].
  right. eexists. split; [|cbn; rewrite Hr; reflexivity]. reflexivity.
Qed.

(** ** Sample deployment *)

Lemma as_EventType_unknown (t : string) :
  t ∉ known_event_types → as_EventType t = None.
Proof.
  intros H. unfold as_EventType.
  repeat match goal with
  | |- context [String.eqb t ?k] =>
      destruct (String.eqb_spec t k) as [->|_];
      [exfalso; apply H; unfold known_event_types; set_solver|]
  end.
  reflexivity.
Qed.

Lemma sample_authenticated table e :
  authenticated (sample_post (Some "whsec_7f3a") e) (sample_world table).
Proof.
  split; [reflexivity|]. exists "whsec_7f3a".
  split; [discriminate|]. split; reflexivity.
Qed.

Lemma sample_client_configured table : client_configured (sample_world table).
Proof.
  split; [vm_compute; discriminate|].
  split; [vm_compute; discriminate|reflexivity].
Qed.

Lemma sample_store_answers table : store_answers (sample_world table).
Proof. intros i. reflexivity. Qed.

(** ** The scenarios of the specification *)

(** A first purchase creates the record, is answered as processed and
    starts the trigger once. *)
Example scenario_first_purchase :
  fst (serve purchase_post fresh_deployment) =
    Ok (processed "INITIAL_PURCHASE" "PRODUCTION" "u1") ∧
  db (snd (serve purchase_post fresh_deployment)) !! ("u1", "product_a") =
    Some (activation_row "u1" "product_a" "p1" "app_store"
            (Some "2030-01-01T00:00:00.000Z") "t1" "PRODUCTION"
            "2023-11-14T22:13:20.000Z" "2023-11-14T22:13:21.000Z") ∧
  trace (snd (serve purchase_post fresh_deployment)) =
    [StoreSelect "active, created_at" "u1" "product_a";
     StoreUpsert
       (activation_payload "u1" "product_a" "p1" "app_store"
          (Some "2030-01-01T00:00:00.000Z") "t1" "PRODUCTION"
          "2023-11-14T22:13:20.000Z" "2023-11-14T22:13:21.000Z");
     InsightsTrigger "u1";
     InsightsPost
       "https://golf.supabase.co/functions/v1/analyze-golf-performance"
       "Bearer service-role-key" "u1" "purchase_webhook"].
Proof. vm_compute. repeat split; reflexivity. Qed.

(** The same purchase replayed does not start the trigger again. *)
Example scenario_replay :
  emitted (serve purchase_post) (snd (serve purchase_post fresh_deployment)) =
    [StoreSelect "active, created_at" "u1" "product_a";
     StoreUpsert
       (activation_payload "u1" "product_a" "p1" "app_store"
          (Some "2030-01-01T00:00:00.000Z") "t1" "PRODUCTION"
          "2023-11-14T22:13:22.000Z" "2023-11-14T22:13:23.000Z")].
Proof. vm_compute. reflexivity. Qed.

(** An expiration after the purchase leaves the record inactive. *)
Example scenario_expiration :
  (row ← db (snd (serve (sample_post (Some "whsec_7f3a")
                           (sample_event "EXPIRATION" (JStr "APP_STORE")))
                    (snd (serve purchase_post fresh_deployment))))
           !! ("u1", "product_a");
   Some (active row)) = Some false.
Proof. vm_compute. reflexivity. Qed.

(** A wrong secret is answered 401 and nothing is touched. *)
Example scenario_wrong_secret :
  serve wrong_secret_post subscribed_deployment =
    (Ok unauthorized, subscribed_deployment).
Proof. reflexivity. Qed.

(** A GET is answered 405 before the secret or the body is looked at. *)
Example scenario_get :
  serve {| method := "GET"; authorization := None; body := None |}
    subscribed_deployment =
    (Ok method_not_allowed, subscribed_deployment).
Proof. reflexivity. Qed.

(** ** Authorization *)

(** C5. A POST whose Authorization header is missing or is not exactly the
    configured secret is answered 401, and a POST to a deployment where the
    secret is not configured (the variable is absent or empty) is answered
    500; in both cases the world the handler leaves is the world it found,
    so no permission record is read or written, whatever event the body
    carries. *)
Theorem post_without_secret_is_rejected (req : request) (w : world) :
  method req = "POST" →
  (∀ secret,
     env w !! "REVENUECAT_AUTH_HEADER" = Some secret → secret ≠ "" →
     authorization req ≠ Some secret →
     serve req w =
       (Ok {| status := 401; headers := json_headers;
              content := ErrorBody "Unauthorized" |}, w)) ∧
  (falsy (env w !! "REVENUECAT_AUTH_HEADER") = true →
   serve req w =
     (Ok {| status := 500; headers := json_headers;
            content := ErrorBody "Server configuration error" |}, w)).
Proof.
  intros Hm. split.
  - intros secret He Hs Ha. exact (serve_unauthorized req w secret Hm He Hs Ha).
  - intros He. exact (serve_unconfigured req w Hm He).
Qed.

Lemma post_without_secret_is_rejected_witness :
  method wrong_secret_post = "POST" ∧
  env fresh_deployment !! "REVENUECAT_AUTH_HEADER" = Some "whsec_7f3a" ∧
  authorization wrong_secret_post ≠ Some "whsec_7f3a" ∧
  serve wrong_secret_post fresh_deployment =
    (Ok {| status := 401; headers := json_headers;
           content := ErrorBody "Unauthorized" |}, fresh_deployment).
Proof.
  split; [reflexivity|]. split; [reflexivity|]. split; [discriminate|].
  apply (proj1 (post_without_secret_is_rejected
                  wrong_secret_post fresh_deployment eq_refl) "whsec_7f3a").
  - reflexivity.
  - discriminate.
  - discriminate.
Defined.

(** ** Events without a store *)

(** C10. An authenticated POST whose event has no string in [store]
    (undefined, null, or any other non-string) is answered with the
    generic 500 before the event type is looked at: the world is left as
    found, for every event type. *)
Theorem event_without_store_is_server_error
    (req : request) (w : world) (e : event) :
  authenticated req w →
  body req = Some e →
  (∀ s, store e ≠ JStr s) →
  serve req w =
    (Ok {| status := 500; headers := json_headers;
           content := Failed "error" "Server error processing webhook" |}, w).
Proof.
  intros (Hm & secret & Hs & He & Ha) Hb Hst.
  unfold serve, try_catch, bind, getenv, parse_event, createClient, new_URL.
  rewrite Hm. simpl.
  rewrite He, Ha. simpl.
  rewrite (eqb_false_of_ne _ _ Hs). simpl.
  rewrite eqb_refl_true. simpl.
  destruct (String.eqb (or_empty (env w !! "SUPABASE_URL")) "");
    [reflexivity|].
  destruct (String.eqb (or_empty (env w !! "SUPABASE_SERVICE_ROLE_KEY")) "");
    [reflexivity|].
  destruct (URL_parses (runtime w) _); [|reflexivity].
  rewrite Hb. unfold ret.
  destruct (store e) as [| | | |s]; try reflexivity.
  exfalso. exact (Hst s eq_refl).
Qed.

Lemma event_without_store_is_server_error_witness :
  authenticated storeless_post fresh_deployment ∧
  store storeless_event = JUndefined ∧
  serve storeless_post fresh_deployment = (Ok server_error, fresh_deployment).
Proof.
  split; [apply sample_authenticated|]. split; [reflexivity|].
  apply (event_without_store_is_server_error
           storeless_post fresh_deployment storeless_event).
  - apply sample_authenticated.
  - reflexivity.
  - intros s. discriminate.
Defined.

(** ** Unknown event types *)

(** C6. On a deployment whose store client can be created (a service key
    and a store URL that [createClient] accepts), an authenticated POST
    that carries an event of the declared shape (a string in [store])
    whose type is none of the seven known kinds is
    answered with the 200 success payload echoing type, environment and
    user id, in the world as found: no lookup and no upsert is sent. *)
Theorem unknown_event_is_acknowledged
    (req : request) (w : world) (e : event) (s : string) :
  authenticated req w →
  client_configured w →
  body req = Some e →
  store e = JStr s →
  type e ∉ known_event_types →
  serve req w =
    (Ok {| status := 200; headers := json_headers;
           content := Processed (type e) (environment e)
                        (original_app_user_id e) |}, w).
Proof.
  intros Ha Hc Hb Hst Ht.
  rewrite (serve_dispatch req w e s Ha Hc Hb Hst).
  unfold selected_handler. rewrite (as_EventType_unknown _ Ht). reflexivity.
Qed.

Lemma unknown_event_is_acknowledged_witness :
  authenticated transfer_post fresh_deployment ∧
  client_configured fresh_deployment ∧
  (type transfer_event ∉ known_event_types) ∧
  serve transfer_post fresh_deployment =
    (Ok (processed "TRANSFER" "PRODUCTION" "u1"), fresh_deployment).
Proof.
  assert (Ht : type transfer_event ∉ known_event_types).
  { unfold known_event_types. simpl. intros Hin.
    repeat (apply elem_of_cons in Hin as [Hin|Hin]; [discriminate|]).
    inversion Hin. }
  split; [apply sample_authenticated|].
  split; [apply sample_client_configured|].
  split; [exact Ht|].
  apply (unknown_event_is_acknowledged
           transfer_post fresh_deployment transfer_event "PLAY_STORE").
  - apply sample_authenticated.
  - apply sample_client_configured.
  - reflexivity.
  - reflexivity.
  - exact Ht.
Defined.

(** ** Expiration *)

Lemma upsert_only_active (table table' : gmap (string * string) permission)
    (key : string * string) :
  (table' = table ∨
   ∃ p, p_active p = true ∧
     table' = <[key := upsert_row (table !! key) p]> table) →
  ∀ k row, table' !! k = Some row → active row = false →
    table !! k = Some row.
Proof.
  intros [->|(p & Hp & ->)] k row Hk Hact; [exact Hk|].
  destruct (decide (key = k)) as [->|Hne].
  - rewrite lookup_insert_eq in Hk. injection Hk as <-.
    simpl in Hact. congruence.
  - rewrite lookup_insert_ne in Hk by exact Hne. exact Hk.
Qed.

Lemma activation_writes_only_active u e p pl exp tx en :
  writes_only_active (handleSubscriptionActivation u e p pl exp tx en).
Proof.
  intros w. apply (upsert_only_active (db w) _ (u, e)).
  destruct (activation_db_cases u e p pl exp tx en w) as [H|(es & t1 & t2 & H)].
  - left. exact H.
  - right. exists (activation_payload u e p pl es tx en t1 t2).
    split; [reflexivity|]. rewrite upsert_activation_row. exact H.
Qed.

Lemma cancellation_writes_only_active u e exp :
  writes_only_active (handleSubscriptionCancellation u e exp).
Proof.
  intros w. apply (upsert_only_active (db w) _ (u, e)).
  exact (cancellation_db_cases u e exp w).
Qed.

Lemma billing_writes_only_active u e :
  writes_only_active (handleBillingIssue u e).
Proof.
  intros w. apply (upsert_only_active (db w) _ (u, e)).
  exact (billing_db_cases u e w).
Qed.

Lemma db_written p w :
  db (written p w) =
  <[(p_profile_id p, p_permission_id p) :=
      upsert_row (db w !! (p_profile_id p, p_permission_id p)) p]> (db w).
Proof. reflexivity. Qed.

(** C4. When the store answers, an EXPIRATION applied to a key that has a
    record returns and leaves a record with [active = false], the prior
    [product_id], [platform] and [expires_at], and metadata status
    ["expired"].  No other handler leaves an inactive row behind that was
    not already in the table: activation, cancellation and billing-issue
    only ever write [active = true]. *)
Theorem expiration_deactivates_and_only_expiration
    (u e : string) (w : world) (row : permission) :
  store_answers w →
  db w !! (u, e) = Some row →
  (∃ w' row' m',
     handleSubscriptionExpiration u e w = (Ok tt, w') ∧
     db w' !! (u, e) = Some row' ∧
     active row' = false ∧
     product_id row' = product_id row ∧
     platform row' = platform row ∧
     expires_at row' = expires_at row ∧
     metadata row' = Some m' ∧
     m' !! "status" = Some (JStr "expired")) ∧
  (∀ p pl exp tx en,
     writes_only_active (handleSubscriptionActivation u e p pl exp tx en)) ∧
  (∀ exp, writes_only_active (handleSubscriptionCancellation u e exp)) ∧
  writes_only_active (handleBillingIssue u e).
Proof.
  intros Hs Hr. split; [|split; [|split]].
  - rewrite (expiration_run u e w (Hs _) (Hs _)).
    eexists _, _, _. split; [reflexivity|].
    rewrite db_written. cbn [p_profile_id p_permission_id expiration_payload].
    rewrite lookup_insert_eq.
    split; [reflexivity|]. cbn.
    rewrite Hr. cbn.
    split; [reflexivity|].
    split; [destruct (product_id row); reflexivity|].
    split; [destruct (platform row); reflexivity|].
    split; [destruct (expires_at row); reflexivity|].
    split; [reflexivity|].
    unfold expiration_metadata.
    rewrite lookup_insert_ne by discriminate.
    rewrite lookup_insert_ne by discriminate.
    apply lookup_insert_eq.
  - intros. apply activation_writes_only_active.
  - intros. apply cancellation_writes_only_active.
  - apply billing_writes_only_active.
Qed.

Lemma sample_table_lookup :
  sample_table !! ("u1", "product_a") = Some sample_row.
Proof. apply lookup_singleton_eq. Qed.

Lemma expiration_deactivates_and_only_expiration_witness :
  store_answers subscribed_deployment ∧
  db subscribed_deployment !! ("u1", "product_a") = Some sample_row ∧
  ∃ w' row',
    handleSubscriptionExpiration "u1" "product_a" subscribed_deployment =
      (Ok tt, w') ∧
    db w' !! ("u1", "product_a") = Some row' ∧
    active row' = false ∧
    expires_at row' = Some "2030-01-01T00:00:00.000Z".
Proof.
  split; [apply sample_store_answers|].
  split; [apply sample_table_lookup|].
  destruct (expiration_deactivates_and_only_expiration
              "u1" "product_a" subscribed_deployment sample_row
              (sample_store_answers sample_table) sample_table_lookup)
    as [(w' & row' & m' & Hrun & Hrow & Hact & _ & _ & Hexp & _) _].
  exists w', row'.
  split; [exact Hrun|]. split; [exact Hrow|]. split; [exact Hact|].
  exact Hexp.
Defined.

(** ** Billing issues *)

(** C9. On a deployment whose store client can be created (a service key
    and a store URL that [createClient] accepts), and when the store
    answers, an authenticated BILLING_ISSUE event of the declared shape (a
    string in [store]) is answered with the 200 success payload.  If the
    key has no record, the table is unchanged and the only request sent to
    the store is the lookup.  If it has one, the record left has
    [active = true], the prior [expires_at], [product_id] and [platform],
    and the prior metadata with the billing-issue flag, the time of
    detection and the source set on top: every other key of the prior
    metadata keeps its value, and no other key is added. *)
Theorem billing_issue_flags_existing_record
    (req : request) (w : world) (e : event) (s : string) :
  authenticated req w →
  client_configured w →
  store_answers w →
  body req = Some e →
  store e = JStr s →
  type e = "BILLING_ISSUE" →
  let u := original_app_user_id e in
  let ent := resolve_entitlement (entitlement_ids e) in
  ∃ w',
    serve req w =
      (Ok {| status := 200; headers := json_headers;
             content := Processed "BILLING_ISSUE" (environment e) u |}, w') ∧
    match db w !! (u, ent) with
    | None =>
        db w' = db w ∧ trace w' = trace w ++ [StoreSelect "*" u ent]
    | Some row =>
        ∃ row' m',
          db w' !! (u, ent) = Some row' ∧
          active row' = true ∧
          expires_at row' = expires_at row ∧
          product_id row' = product_id row ∧
          platform row' = platform row ∧
          metadata row' = Some m' ∧
          m' !! "billing_issue" = Some (JBool true) ∧
          m' !! "billing_issue_detected_at" =
            Some (JStr (clock w (clock_reads w))) ∧
          m' !! "source" = Some (JStr "revenuecat_webhook") ∧
          ∀ key, key ∉ billing_stamps →
            m' !! key = (m ← metadata row; m !! key)
    end.
Proof.
  intros Ha Hc Hs Hb Hst Ht u ent.
  rewrite (serve_dispatch req w e s Ha Hc Hb Hst).
  unfold selected_handler. rewrite Ht.
  change (as_EventType "BILLING_ISSUE") with (Some BILLING_ISSUE).
  cbv beta iota. fold u ent.
  destruct (db w !! (u, ent)) as [row|] eqn:Hr.
  - rewrite (billing_run_present u ent w row (Hs _) (Hs _) Hr).
    eexists. split; [reflexivity|].
    eexists _, _. rewrite db_written.
    cbn [p_profile_id p_permission_id billing_payload].
    rewrite lookup_insert_eq.
    split; [reflexivity|]. cbn.
    rewrite Hr. cbn.
    split; [reflexivity|].
    split; [destruct (expires_at row); reflexivity|].
    split; [destruct (product_id row); reflexivity|].
    split; [destruct (platform row); reflexivity|].
    split; [reflexivity|].
    unfold billing_metadata.
    split; [|split; [|split]].
    + rewrite lookup_insert_ne by discriminate.
      rewrite lookup_insert_ne by discriminate.
      apply lookup_insert_eq.
    + rewrite lookup_insert_ne by discriminate.
      apply lookup_insert_eq.
    + apply lookup_insert_eq.
    + intros key Hk.
      assert (Hne : key ≠ "source" ∧ key ≠ "billing_issue_detected_at" ∧
                    key ≠ "billing_issue").
      { unfold billing_stamps in Hk.
        repeat split; intros ->; apply Hk;
          repeat first [apply list_elem_of_here | apply list_elem_of_further]. }
      destruct Hne as (H1 & H2 & H3).
      rewrite lookup_insert_ne by congruence.
      rewrite lookup_insert_ne by congruence.
      rewrite lookup_insert_ne by congruence.
      unfold existing_metadata. cbn.
      destruct (metadata row); [reflexivity|apply lookup_empty].
  - rewrite (billing_run_absent u ent w (Hs _) Hr).
    eexists. split; [reflexivity|]. split; reflexivity.
Qed.

Lemma billing_issue_flags_existing_record_witness :
  (authenticated billing_post fresh_deployment ∧
   client_configured fresh_deployment ∧
   store_answers fresh_deployment ∧
   db fresh_deployment !! ("u1", "product_a") = None ∧
   ∃ w',
     serve billing_post fresh_deployment =
       (Ok (processed "BILLING_ISSUE" "PRODUCTION" "u1"), w') ∧
     db w' = db fresh_deployment) ∧
  (authenticated billing_post subscribed_deployment ∧
   client_configured subscribed_deployment ∧
   store_answers subscribed_deployment ∧
   db subscribed_deployment !! ("u1", "product_a") = Some sample_row ∧
   ∃ w' row' m',
     serve billing_post subscribed_deployment =
       (Ok (processed "BILLING_ISSUE" "PRODUCTION" "u1"), w') ∧
     db w' !! ("u1", "product_a") = Some row' ∧
     active row' = true ∧
     expires_at row' = Some "2030-01-01T00:00:00.000Z" ∧
     platform row' = Some "app_store" ∧
     metadata row' = Some m' ∧
     m' !! "billing_issue" = Some (JBool true) ∧
     m' !! "billing_issue_detected_at" =
       Some (JStr "2023-11-14T22:13:20.000Z") ∧
     m' !! "transaction_id" = Some (JStr "t1") ∧
     m' !! "status" = Some (JStr "active")).
Proof.
  split.
  - split; [apply sample_authenticated|].
    split; [apply sample_client_configured|].
    split; [apply sample_store_answers|].
    split; [apply lookup_empty|].
    destruct (billing_issue_flags_existing_record
                billing_post fresh_deployment billing_event "APP_STORE"
                (sample_authenticated ∅ billing_event)
                (sample_client_configured ∅)
                (sample_store_answers ∅) eq_refl eq_refl eq_refl)
      as (w' & Hrun & Hcase).
    exists w'. split; [exact Hrun|].
    change (db fresh_deployment
              !! (original_app_user_id billing_event,
                  resolve_entitlement (entitlement_ids billing_event)))
      with ((∅ : gmap (string * string) permission) !! ("u1", "product_a"))
      in Hcase.
    rewrite lookup_empty in Hcase. exact (proj1 Hcase).
  - split; [apply sample_authenticated|].
    split; [apply sample_client_configured|].
    split; [apply sample_store_answers|].
    split; [apply sample_table_lookup|].
    destruct (billing_issue_flags_existing_record
                billing_post subscribed_deployment billing_event "APP_STORE"
                (sample_authenticated sample_table billing_event)
                (sample_client_configured sample_table)
                (sample_store_answers sample_table) eq_refl eq_refl eq_refl)
      as (w' & Hrun & Hcase).
    change (db subscribed_deployment
              !! (original_app_user_id billing_event,
                  resolve_entitlement (entitlement_ids billing_event)))
      with (sample_table !! ("u1", "product_a")) in Hcase.
    rewrite sample_table_lookup in Hcase.
    destruct Hcase
      as (row' & m' & Hrow & Hact & Hexp & _ & Hpl & Hm & Hflag & Hat & _
          & Hother).
    exists w', row', m'.
    split; [exact Hrun|]. split; [exact Hrow|]. split; [exact Hact|].
    split; [exact Hexp|]. split; [exact Hpl|]. split; [exact Hm|].
    split; [exact Hflag|]. split; [exact Hat|].
    assert (Hkey : ∀ key : string,
               key = "transaction_id" ∨ key = "status" →
               key ∉ billing_stamps).
    { intros key Hk Hin. unfold billing_stamps in Hin.
      repeat (apply elem_of_cons in Hin as [Hin|Hin];
              [destruct Hk; subst; discriminate|]).
      inversion Hin. }
    split.
    + rewrite (Hother "transaction_id" (Hkey _ (or_introl eq_refl))).
      vm_compute. reflexivity.
    + rewrite (Hother "status" (Hkey _ (or_intror eq_refl))).
      vm_compute. reflexivity.
Defined.

(** ** What an applied activation leaves *)

Lemma emitted_app {A} (m : M A) (w : world) (new : list effect) :
  trace (snd (m w)) = trace w ++ new → emitted m w = new.
Proof. intros H. unfold emitted. rewrite H. apply drop_app_length. Qed.

Lemma activation_applied u e p pl exp tx en w :
  printable exp →
  store_fault w (S (store_requests w)) = None →
  ∃ w1 posts,
    handleSubscriptionActivation u e p pl exp tx en w = (Ok tt, w1) ∧
    db w1 =
      <[(u, e) := activation_row u e p pl (ISO.format <$> exp) tx en
                    (clock w (clock_reads w)) (clock w (S (clock_reads w)))]>
        (db w) ∧
    clock w1 = clock w ∧
    clock_reads w1 = S (S (clock_reads w)) ∧
    store_fault w1 = store_fault w ∧
    store_requests w1 = S (S (store_requests w)) ∧
    trace w1 =
      trace w ++
      [StoreSelect "active, created_at" u e;
       StoreUpsert (activation_payload u e p pl (ISO.format <$> exp) tx en
                      (clock w (clock_reads w)) (clock w (S (clock_reads w))))]
      ++ (if String.eqb e "product_a" && is_new (seen u e w)
          then InsightsTrigger u :: posts else []) ∧
    ∀ u', InsightsTrigger u' ∉ posts.
Proof.
  intros Hp Hf.
  rewrite (activation_run u e p pl exp tx en w _
             (expiration_text_printable exp Hp) Hf).
  set (pay := activation_payload _ _ _ _ _ _ _ _ _).
  set (w1 := written pay (activation_ready u e w)).
  destruct (trigger_swallows u w1) as (posts & Hrun & Hposts).
  exists (if String.eqb e "product_a" && is_new (seen u e w)
          then snd (triggerPremiumInsightsGeneration u w1) else w1), posts.
  split; [reflexivity|].
  assert (Hrow : db w1 =
    <[(u, e) := activation_row u e p pl (ISO.format <$> exp) tx en
                  (clock w (clock_reads w)) (clock w (S (clock_reads w)))]>
      (db w)).
  { subst w1. rewrite db_written. subst pay.
    rewrite upsert_activation_row. reflexivity. }
  assert (Htrace : trace w1 =
    trace w ++ [StoreSelect "active, created_at" u e; StoreUpsert pay]).
  { subst w1. cbn. rewrite <- app_assoc. reflexivity. }
  destruct (String.eqb e "product_a" && is_new (seen u e w)).
  - rewrite Hrun. cbn [snd db clock clock_reads store_fault store_requests trace].
    split; [exact Hrow|].
    repeat (split; [reflexivity|]).
    split; [|exact Hposts].
    rewrite Htrace, <- app_assoc. reflexivity.
  - split; [exact Hrow|].
    repeat (split; [reflexivity|]).
    split; [|exact Hposts].
    rewrite Htrace, app_nil_r. reflexivity.
Qed.

(** ** Replaying an activation *)

Lemma activation_metadata_other tx en t1 t2 t3 t4 (key : string) :
  key ≠ "updated_at" → key ≠ "event_processed_at" →
  activation_metadata tx en t3 t4 !! key =
  activation_metadata tx en t1 t2 !! key.
Proof.
  intros H1 H2. unfold activation_metadata.
  rewrite !lookup_insert.
  repeat case_decide; congruence.
Qed.

Lemma activation_metadata_updated_at tx en t1 t2 :
  activation_metadata tx en t1 t2 !! "updated_at" = Some (JStr t1).
Proof. unfold activation_metadata. by simplify_map_eq. Qed.

Lemma activation_metadata_event_processed_at tx en t1 t2 :
  activation_metadata tx en t1 t2 !! "event_processed_at" = Some (JStr t2).
Proof. unfold activation_metadata. by simplify_map_eq. Qed.

(** Two applications of one activation, one after the other. *)
Lemma activation_twice u e p pl exp tx en w :
  printable exp →
  store_answers w →
  let r := clock_reads w in
  ∃ w1 w2,
    handleSubscriptionActivation u e p pl exp tx en w = (Ok tt, w1) ∧
    handleSubscriptionActivation u e p pl exp tx en w1 = (Ok tt, w2) ∧
    db w1 !! (u, e) =
      Some (activation_row u e p pl (ISO.format <$> exp) tx en
              (clock w r) (clock w (S r))) ∧
    db w2 !! (u, e) =
      Some (activation_row u e p pl (ISO.format <$> exp) tx en
              (clock w (S (S r))) (clock w (S (S (S r))))).
Proof.
  intros Hp Hs r.
  destruct (activation_applied u e p pl exp tx en w Hp (Hs _))
    as (w1 & posts1 & Hrun1 & Hdb1 & Hc1 & Hr1 & Hf1 & _).
  assert (Hs1 : store_fault w1 (S (store_requests w1)) = None).
  { rewrite Hf1. apply Hs. }
  destruct (activation_applied u e p pl exp tx en w1 Hp Hs1)
    as (w2 & posts2 & Hrun2 & Hdb2 & _).
  exists w1, w2.
  split; [exact Hrun1|]. split; [exact Hrun2|].
  rewrite Hdb2, Hdb1, Hc1, Hr1, !lookup_insert_eq.
  split; reflexivity.
Qed.

(** C2, as the code has it.  When the expiration prints and the store
    answers, applying one activation twice in a row returns both times, and
    the record after the second application equals the record after the
    first in every column and in every metadata field except
    [updated_at] and [event_processed_at], which carry the clock readings
    of the second application.  The two records are identical when those
    readings coincide with the first application's. *)
Theorem replayed_activation_differs_only_in_timestamps
    (u e p pl : string) (exp : option Z) (tx en : string) (w : world) :
  printable exp →
  store_answers w →
  let r := clock_reads w in
  ∃ w1 w2 row1 row2 m1 m2,
    handleSubscriptionActivation u e p pl exp tx en w = (Ok tt, w1) ∧
    handleSubscriptionActivation u e p pl exp tx en w1 = (Ok tt, w2) ∧
    db w1 !! (u, e) = Some row1 ∧
    db w2 !! (u, e) = Some row2 ∧
    profile_id row2 = profile_id row1 ∧
    permission_id row2 = permission_id row1 ∧
    active row2 = active row1 ∧
    expires_at row2 = expires_at row1 ∧
    product_id row2 = product_id row1 ∧
    platform row2 = platform row1 ∧
    revenuecat_user_id row2 = revenuecat_user_id row1 ∧
    metadata row1 = Some m1 ∧
    metadata row2 = Some m2 ∧
    (∀ key, key ≠ "updated_at" → key ≠ "event_processed_at" →
       m2 !! key = m1 !! key) ∧
    m2 !! "updated_at" = Some (JStr (clock w (S (S r)))) ∧
    m2 !! "event_processed_at" = Some (JStr (clock w (S (S (S r))))) ∧
    (clock w (S (S r)) = clock w r →
     clock w (S (S (S r))) = clock w (S r) →
     row2 = row1).
Proof.
  intros Hp Hs r.
  destruct (activation_twice u e p pl exp tx en w Hp Hs)
    as (w1 & w2 & Hrun1 & Hrun2 & Hrow1 & Hrow2).
  eexists w1, w2, _, _, _, _.
  split; [exact Hrun1|]. split; [exact Hrun2|].
  split; [exact Hrow1|]. split; [exact Hrow2|].
  repeat (split; [reflexivity|]).
  split.
  { intros key. apply activation_metadata_other. }
  split.
  { apply activation_metadata_updated_at. }
  split.
  { apply activation_metadata_event_processed_at. }
  fold r. intros -> ->. reflexivity.
Qed.

Lemma replayed_activation_differs_only_in_timestamps_witness :
  printable (Some 1893456000000) ∧ store_answers fresh_deployment ∧
  ∃ w1 w2 row1 row2,
    sample_purchase fresh_deployment = (Ok tt, w1) ∧
    sample_purchase w1 = (Ok tt, w2) ∧
    db w1 !! ("u1", "product_a") = Some row1 ∧
    db w2 !! ("u1", "product_a") = Some row2 ∧
    expires_at row2 = expires_at row1.
Proof.
  split; [apply printable_sample; reflexivity|].
  split; [apply sample_store_answers|].
  destruct (replayed_activation_differs_only_in_timestamps
              "u1" "product_a" "p1" "app_store" (Some 1893456000000) "t1"
              "PRODUCTION" fresh_deployment
              (printable_sample 1893456000000 eq_refl)
              (sample_store_answers ∅))
    as (w1 & w2 & row1 & row2 & m1 & m2 & H1 & H2 & H3 & H4 & _ & _ & _ & H5 & _).
  exists w1, w2, row1, row2.
  repeat (split; [assumption|]). exact H5.
Defined.

(** C2, as stated, fails.  On a clock that advances between readings, the
    record left by the second application of an INITIAL_PURCHASE is not the
    record left by the first: its metadata carries later timestamps. *)
Lemma replayed_activation_is_not_identical :
  fst (sample_purchase fresh_deployment) = Ok tt ∧
  fst (sample_purchase (snd (sample_purchase fresh_deployment))) = Ok tt ∧
  db (snd (sample_purchase (snd (sample_purchase fresh_deployment))))
    !! ("u1", "product_a") ≠
  db (snd (sample_purchase fresh_deployment)) !! ("u1", "product_a").
Proof.
  destruct (activation_twice "u1" "product_a" "p1" "app_store"
              (Some 1893456000000) "t1" "PRODUCTION" fresh_deployment
              (printable_sample 1893456000000 eq_refl)
              (sample_store_answers ∅))
    as (v1 & v2 & Hrun1 & Hrun2 & Hrow1 & Hrow2).
  unfold sample_purchase.
  rewrite Hrun1. cbn [fst snd]. rewrite Hrun2. cbn [fst snd].
  split; [reflexivity|]. split; [reflexivity|].
  rewrite Hrow1, Hrow2. intros Heq.
  apply (f_equal (λ o, row ← o; m ← metadata row; m !! "updated_at")) in Heq.
  cbn [mbind option_bind metadata activation_row] in Heq.
  rewrite !activation_metadata_updated_at in Heq.
  vm_compute in Heq. discriminate Heq.
Qed.

(** ** Cancellation keeps access *)

(** C3, as the code has it.  When the expiration prints and the store
    answers, a CANCELLATION applied to a key that has a record returns and
    leaves a record with [active = true], the prior [product_id] and
    [platform], and metadata with status ["cancelled"] and the time of
    cancellation; its [expires_at] is the expiration the event carries,
    printed as an ISO string, and NULL when the event carries none. *)
Theorem cancellation_keeps_access_until_event_expiry
    (u e : string) (exp : option Z) (w : world) (row : permission) :
  printable exp →
  store_answers w →
  db w !! (u, e) = Some row →
  ∃ w' row' m',
    handleSubscriptionCancellation u e exp w = (Ok tt, w') ∧
    db w' !! (u, e) = Some row' ∧
    active row' = true ∧
    expires_at row' = ISO.format <$> exp ∧
    product_id row' = product_id row ∧
    platform row' = platform row ∧
    metadata row' = Some m' ∧
    m' !! "status" = Some (JStr "cancelled") ∧
    m' !! "cancelled_at" = Some (JStr (clock w (clock_reads w))).
Proof.
  intros Hp Hs Hr.
  rewrite (cancellation_run u e exp w _
             (expiration_text_printable exp Hp) (Hs _) (Hs _)).
  eexists _, _, _. split; [reflexivity|].
  rewrite db_written. cbn [p_profile_id p_permission_id cancellation_payload].
  rewrite lookup_insert_eq.
  split; [reflexivity|]. cbn.
  rewrite Hr. cbn.
  split; [reflexivity|].
  split; [apply write_nullable|].
  split; [destruct (product_id row); reflexivity|].
  split; [destruct (platform row); reflexivity|].
  split; [reflexivity|].
  unfold cancellation_metadata.
  split.
  - rewrite lookup_insert_ne by discriminate.
    rewrite lookup_insert_ne by discriminate.
    apply lookup_insert_eq.
  - rewrite lookup_insert_ne by discriminate.
    apply lookup_insert_eq.
Qed.

Lemma cancellation_keeps_access_until_event_expiry_witness :
  printable (Some 1900000000000) ∧ store_answers subscribed_deployment ∧
  db subscribed_deployment !! ("u1", "product_a") = Some sample_row ∧
  ∃ w' row',
    sample_cancellation subscribed_deployment = (Ok tt, w') ∧
    db w' !! ("u1", "product_a") = Some row' ∧
    active row' = true ∧
    expires_at row' = Some "2030-03-17T17:46:40.000Z".
Proof.
  split; [apply printable_sample; reflexivity|].
  split; [apply sample_store_answers|].
  split; [apply sample_table_lookup|].
  destruct (cancellation_keeps_access_until_event_expiry
              "u1" "product_a" (Some 1900000000000) subscribed_deployment
              sample_row
              (printable_sample 1900000000000 eq_refl)
              (sample_store_answers sample_table) sample_table_lookup)
    as (w' & row' & m' & Hrun & Hrow & Hact & Hexp & _).
  exists w', row'.
  split; [exact Hrun|]. split; [exact Hrow|]. split; [exact Hact|].
  rewrite Hexp. vm_compute. reflexivity.
Defined.

(** C3, as stated, fails.  A CANCELLATION that carries the expiration
    2030-03-17 applied to a record stored with the expiration 2030-01-01
    leaves the event's expiration in [expires_at], not the stored one. *)
Lemma cancellation_overwrites_stored_expiry :
  fst (sample_cancellation subscribed_deployment) = Ok tt ∧
  (row ← db subscribed_deployment !! ("u1", "product_a"); expires_at row) =
    Some "2030-01-01T00:00:00.000Z" ∧
  (row ← db (snd (sample_cancellation subscribed_deployment))
           !! ("u1", "product_a");
   expires_at row) =
    Some "2030-03-17T17:46:40.000Z".
Proof.
  unfold sample_cancellation.
  rewrite (cancellation_run "u1" "product_a" (Some 1900000000000)
             subscribed_deployment
             (Some (ISO.format 1900000000000)) eq_refl eq_refl eq_refl).
  cbn [fst snd].
  split; [reflexivity|].
  split.
  { unfold subscribed_deployment. cbn [db sample_world].
    rewrite sample_table_lookup. reflexivity. }
  rewrite db_written. cbn [p_profile_id p_permission_id cancellation_payload].
  rewrite lookup_insert_eq. vm_compute. reflexivity.
Qed.

(** ** Metadata *)

Ltac other_key H :=
  rewrite !lookup_insert;
  repeat case_decide; try reflexivity;
  subst; exfalso; apply H; set_solver.

Lemma cancellation_metadata_other m t (key : string) :
  key ∉ cancellation_stamps → cancellation_metadata m t !! key = m !! key.
Proof.
  intros H. unfold cancellation_metadata, cancellation_stamps in *.
  other_key H.
Qed.

Lemma expiration_metadata_other m t (key : string) :
  key ∉ expiration_stamps → expiration_metadata m t !! key = m !! key.
Proof.
  intros H. unfold expiration_metadata, expiration_stamps in *.
  other_key H.
Qed.

Lemma billing_metadata_other m t (key : string) :
  key ∉ billing_stamps → billing_metadata m t !! key = m !! key.
Proof.
  intros H. unfold billing_metadata, billing_stamps in *.
  other_key H.
Qed.

Lemma activation_metadata_fresh tx en t1 t2 (key : string) :
  key ∉ activation_stamps → activation_metadata tx en t1 t2 !! key = None.
Proof.
  intros H. unfold activation_metadata, activation_stamps in *.
  rewrite !lookup_insert, lookup_empty.
  repeat case_decide; try reflexivity;
  subst; exfalso; apply H; set_solver.
Qed.

(** C8, as the code has it.  When the store answers, cancellation,
    expiration and billing-issue applied to a key that has a record write
    the prior metadata with their own three keys set on top: every other
    prior key keeps its value.  Activation writes a metadata object of its
    own six keys and nothing else: no other prior key is left. *)
Theorem metadata_is_merged_except_by_activation
    (u e : string) (w : world) (row : permission) :
  store_answers w →
  db w !! (u, e) = Some row →
  let prior := existing_metadata (Some row) in
  (∀ exp, printable exp →
     ∃ w' row',
       handleSubscriptionCancellation u e exp w = (Ok tt, w') ∧
       db w' !! (u, e) = Some row' ∧
       ∀ key, key ∉ cancellation_stamps →
         (m ← metadata row'; m !! key) = prior !! key) ∧
  (∃ w' row',
     handleSubscriptionExpiration u e w = (Ok tt, w') ∧
     db w' !! (u, e) = Some row' ∧
     ∀ key, key ∉ expiration_stamps →
       (m ← metadata row'; m !! key) = prior !! key) ∧
  (∃ w' row',
     handleBillingIssue u e w = (Ok tt, w') ∧
     db w' !! (u, e) = Some row' ∧
     ∀ key, key ∉ billing_stamps →
       (m ← metadata row'; m !! key) = prior !! key) ∧
  (∀ p pl exp tx en, printable exp →
     ∃ w' row',
       handleSubscriptionActivation u e p pl exp tx en w = (Ok tt, w') ∧
       db w' !! (u, e) = Some row' ∧
       ∀ key, key ∉ activation_stamps →
         (m ← metadata row'; m !! key) = None).
Proof.
  intros Hs Hr prior. subst prior. split; [|split; [|split]].
  - intros exp Hp.
    rewrite (cancellation_run u e exp w _
               (expiration_text_printable exp Hp) (Hs _) (Hs _)).
    eexists _, _. split; [reflexivity|].
    rewrite db_written. cbn [p_profile_id p_permission_id cancellation_payload].
    rewrite lookup_insert_eq. split; [reflexivity|].
    intros key Hk. cbn. rewrite Hr.
    apply cancellation_metadata_other. exact Hk.
  - rewrite (expiration_run u e w (Hs _) (Hs _)).
    eexists _, _. split; [reflexivity|].
    rewrite db_written. cbn [p_profile_id p_permission_id expiration_payload].
    rewrite lookup_insert_eq. split; [reflexivity|].
    intros key Hk. cbn. rewrite Hr.
    apply expiration_metadata_other. exact Hk.
  - rewrite (billing_run_present u e w row (Hs _) (Hs _) Hr).
    eexists _, _. split; [reflexivity|].
    rewrite db_written. cbn [p_profile_id p_permission_id billing_payload].
    rewrite lookup_insert_eq. split; [reflexivity|].
    intros key Hk. cbn.
    apply billing_metadata_other. exact Hk.
  - intros p pl exp tx en Hp.
    destruct (activation_applied u e p pl exp tx en w Hp (Hs _))
      as (w1 & posts & Hrun & Hdb & _).
    exists w1. eexists. split; [exact Hrun|].
    rewrite Hdb, lookup_insert_eq. split; [reflexivity|].
    intros key Hk. cbn.
    apply activation_metadata_fresh. exact Hk.
Qed.

Lemma metadata_is_merged_except_by_activation_witness :
  store_answers subscribed_deployment ∧
  db subscribed_deployment !! ("u1", "product_a") = Some sample_row ∧
  ∃ w' row',
    handleSubscriptionExpiration "u1" "product_a" subscribed_deployment =
      (Ok tt, w') ∧
    db w' !! ("u1", "product_a") = Some row' ∧
    (m ← metadata row'; m !! "billing_issue") = Some (JBool true).
Proof.
  split; [apply sample_store_answers|].
  split; [apply sample_table_lookup|].
  destruct (metadata_is_merged_except_by_activation
              "u1" "product_a" subscribed_deployment sample_row
              (sample_store_answers sample_table) sample_table_lookup)
    as (_ & (w' & row' & Hrun & Hrow & Hkeep) & _).
  exists w', row'.
  split; [exact Hrun|]. split; [exact Hrow|].
  rewrite (Hkeep "billing_issue").
  - vm_compute. reflexivity.
  - unfold expiration_stamps. intros Hin.
    repeat (apply elem_of_cons in Hin as [Hin|Hin]; [discriminate|]).
    inversion Hin.
Defined.

(** C8, as stated, fails.  A RENEWAL applied to a record whose metadata
    carries [billing_issue: true] leaves metadata without that key. *)
Lemma activation_drops_prior_metadata :
  fst (sample_renewal subscribed_deployment) = Ok tt ∧
  (row ← db subscribed_deployment !! ("u1", "product_a");
   m ← metadata row; m !! "billing_issue") = Some (JBool true) ∧
  (row ← db (snd (sample_renewal subscribed_deployment))
           !! ("u1", "product_a");
   m ← metadata row; m !! "billing_issue") = None.
Proof.
  destruct (activation_applied "u1" "product_a" "p1" "app_store"
              (Some 1893456000000) "t2" "PRODUCTION" subscribed_deployment
              (printable_sample 1893456000000 eq_refl) eq_refl)
    as (w1 & posts & Hrun & Hdb & _).
  unfold sample_renewal. rewrite Hrun. cbn [fst snd].
  split; [reflexivity|].
  split.
  - unfold subscribed_deployment. cbn [db sample_world].
    rewrite sample_table_lookup. vm_compute. reflexivity.
  - rewrite Hdb, lookup_insert_eq. cbn.
    apply activation_metadata_fresh. unfold activation_stamps. intros Hin.
    repeat (apply elem_of_cons in Hin as [Hin|Hin]; [discriminate|]).
    inversion Hin.
Qed.

(** ** The insights trigger and the response *)

Lemma as_EventType_activation (t : string) :
  t ∈ activation_event_types →
  as_EventType t = Some INITIAL_PURCHASE ∨ as_EventType t = Some RENEWAL ∨
  as_EventType t = Some NON_RENEWING_PURCHASE ∨
  as_EventType t = Some PRODUCT_CHANGE.
Proof.
  unfold activation_event_types. intros H.
  repeat (apply elem_of_cons in H as [->|H]; [auto|]).
  inversion H.
Qed.

Lemma activation_selected (e : event) (pl : string) :
  type e ∈ activation_event_types →
  selected_handler e pl =
    handleSubscriptionActivation (original_app_user_id e)
      (resolve_entitlement (entitlement_ids e)) (ev_product_id e) pl
      (expiration_date (expiration_at_ms e)) (transaction_id e)
      (environment e).
Proof.
  intros H. unfold selected_handler.
  destruct (as_EventType_activation _ H) as [->|[->|[->| ->]]]; reflexivity.
Qed.

(** C7. Take an authenticated activation event of the declared shape for
    the premium entitlement, on a key with no active record, on a
    deployment whose store client can be created (a service key and a
    store URL that [createClient] accepts) and whose store answers: a new
    premium activation.  Whatever the
    insights endpoint does (the call throws, the reply is not a success,
    its body cannot be read, or it succeeds) the trigger is started, the
    handler answers with the 200 success payload, and the table holds the
    activation's row, which does not depend on the endpoint's reply. *)
Theorem insights_outcome_does_not_reach_response
    (req : request) (w : world) (e : event) (s : string)
    (reply : outcome http_response) :
  authenticated req w →
  client_configured w →
  store_answers w →
  body req = Some e →
  store e = JStr s →
  type e ∈ activation_event_types →
  printable (expiration_date (expiration_at_ms e)) →
  resolve_entitlement (entitlement_ids e) = "product_a" →
  let u := original_app_user_id e in
  is_new (db w !! (u, "product_a")) = true →
  ∃ w',
    serve req (with_insights_reply reply w) =
      (Ok {| status := 200; headers := json_headers;
             content := Processed (type e) (environment e) u |}, w') ∧
    InsightsTrigger u ∈ emitted (serve req) (with_insights_reply reply w) ∧
    db w' =
      <[(u, "product_a") :=
          activation_row u "product_a" (ev_product_id e)
            (toLowerCase (runtime w) s)
            (ISO.format <$> expiration_date (expiration_at_ms e))
            (transaction_id e) (environment e)
            (clock w (clock_reads w)) (clock w (S (clock_reads w)))]> (db w).
Proof.
  intros Ha Hc Hs Hb Hst Ht Hp Hent u Hnew.
  set (wr := with_insights_reply reply w).
  assert (Hserve := serve_dispatch req wr e s Ha Hc Hb Hst).
  change (runtime wr) with (runtime w) in Hserve.
  rewrite (activation_selected e _ Ht), Hent in Hserve.
  destruct (activation_applied u "product_a" (ev_product_id e)
              (toLowerCase (runtime w) s)
              (expiration_date (expiration_at_ms e)) (transaction_id e)
              (environment e) wr Hp (Hs _))
    as (w1 & posts & Hrun & Hdb & _ & _ & _ & _ & Htrace & _).
  fold u in Hserve. rewrite Hrun in Hserve.
  exists w1. split; [exact Hserve|]. split; [|exact Hdb].
  rewrite (emitted_app (serve req) wr
             ([StoreSelect "active, created_at" u "product_a";
               StoreUpsert
                 (activation_payload u "product_a" (ev_product_id e)
                    (toLowerCase (runtime w) s)
                    (ISO.format <$> expiration_date (expiration_at_ms e))
                    (transaction_id e) (environment e)
                    (clock w (clock_reads w)) (clock w (S (clock_reads w))))]
              ++ InsightsTrigger u :: posts)).
  - apply elem_of_app. right. apply list_elem_of_here.
  - rewrite Hserve. cbn [snd]. rewrite Htrace.
    unfold seen. cbn [store_fault store_requests wr with_insights_reply db].
    rewrite (Hs _), Hnew. reflexivity.
Qed.

Lemma insights_outcome_does_not_reach_response_witness :
  authenticated purchase_post fresh_deployment ∧
  client_configured fresh_deployment ∧
  store_answers fresh_deployment ∧
  is_new (db fresh_deployment !! ("u1", "product_a")) = true ∧
  ∃ w',
    serve purchase_post (with_insights_reply unavailable_reply fresh_deployment)
      = (Ok (processed "INITIAL_PURCHASE" "PRODUCTION" "u1"), w') ∧
    InsightsTrigger "u1" ∈
      emitted (serve purchase_post)
        (with_insights_reply unavailable_reply fresh_deployment).
Proof.
  split; [apply sample_authenticated|].
  split; [apply sample_client_configured|].
  split; [apply sample_store_answers|].
  split; [reflexivity|].
  assert (Ht : type purchase_event ∈ activation_event_types).
  { unfold activation_event_types. simpl. apply list_elem_of_here. }
  destruct (insights_outcome_does_not_reach_response
              purchase_post fresh_deployment purchase_event "APP_STORE"
              unavailable_reply
              (sample_authenticated ∅ purchase_event)
              (sample_client_configured ∅)
              (sample_store_answers ∅) eq_refl eq_refl Ht
              (printable_sample 1893456000000 eq_refl) eq_refl eq_refl)
    as (w' & Hrun & Hfired & _).
  exists w'. split; [exact Hrun|exact Hfired].
Defined.

(** ** When the trigger is started *)

(** C1 at the failing input.  A RENEWAL for a user whose premium record is
    active, handled while the lookup of that record fails and the upsert
    succeeds, is answered as processed and starts the insights trigger:
    the lookup's error is not inspected and its empty [data] is taken for
    a missing record. *)
Theorem renewal_with_failed_lookup_starts_trigger :
  (row ← db lookup_fails_world !! ("u1", "product_a"); Some (active row)) =
    Some true ∧
  fst (serve renewal_post lookup_fails_world) =
    Ok (processed "RENEWAL" "PRODUCTION" "u1") ∧
  InsightsTrigger "u1" ∈ emitted (serve renewal_post) lookup_fails_world.
Proof.
  assert (Ha : authenticated renewal_post lookup_fails_world).
  { split; [reflexivity|]. exists "whsec_7f3a".
    split; [discriminate|]. split; reflexivity. }
  assert (Hc : client_configured lookup_fails_world).
  { split; [vm_compute; discriminate|].
    split; [vm_compute; discriminate|reflexivity]. }
  assert (Ht : type renewal_event ∈ activation_event_types).
  { unfold activation_event_types. simpl.
    apply list_elem_of_further, list_elem_of_here. }
  assert (Hserve := serve_dispatch renewal_post lookup_fails_world
                      renewal_event "APP_STORE" Ha Hc eq_refl eq_refl).
  rewrite (activation_selected renewal_event _ Ht) in Hserve.
  destruct (activation_applied "u1" "product_a" "p1" "app_store"
              (Some 1893456000000) "t1" "PRODUCTION" lookup_fails_world
              (printable_sample 1893456000000 eq_refl) eq_refl)
    as (w1 & posts & Hrun & _ & _ & _ & _ & _ & Htrace & _).
  change (handleSubscriptionActivation (original_app_user_id renewal_event)
            (resolve_entitlement (entitlement_ids renewal_event))
            (ev_product_id renewal_event)
            (toLowerCase (runtime lookup_fails_world) "APP_STORE")
            (expiration_date (expiration_at_ms renewal_event))
            (transaction_id renewal_event) (environment renewal_event)
            lookup_fails_world)
    with (handleSubscriptionActivation "u1" "product_a" "p1" "app_store"
            (Some 1893456000000) "t1" "PRODUCTION" lookup_fails_world)
    in Hserve.
  rewrite Hrun in Hserve.
  split.
  { cbn [db lookup_fails_world]. rewrite sample_table_lookup. reflexivity. }
  split.
  { rewrite Hserve. reflexivity. }
  erewrite emitted_app.
  2: { rewrite Hserve. cbn [snd]. exact Htrace. }
  apply elem_of_app. right. apply list_elem_of_here.
Qed.

Lemma cancellation_never_triggers u e exp :
  never_triggers (handleSubscriptionCancellation u e exp).
Proof.
  intros w u'.
  unfold handleSubscriptionCancellation, try_catch, bind, emitted.
  rewrite expiration_string_run.
  destruct (expiration_text exp) as [es|err].
  2: { cbn. rewrite drop_all. apply not_elem_of_nil. }
  unfold store_select.
  destruct (store_fault w (store_requests w)).
  { cbn. rewrite drop_app_length.
    intros Hin; apply list_elem_of_singleton in Hin; discriminate. }
  cbn [now fst snd]. unfold store_upsert.
  cbn [store_fault store_requests count_clock_read count_store_request
       record_effect].
  destruct (store_fault w (S (store_requests w)));
    cbn; rewrite <- app_assoc, drop_app_length; intros Hin;
    repeat (apply elem_of_cons in Hin as [Hin|Hin]; [discriminate|]);
    inversion Hin.
Qed.

Lemma expiration_never_triggers u e :
  never_triggers (handleSubscriptionExpiration u e).
Proof.
  intros w u'.
  unfold handleSubscriptionExpiration, try_catch, bind, emitted.
  unfold store_select.
  destruct (store_fault w (store_requests w)).
  { cbn. rewrite drop_app_length.
    intros Hin; apply list_elem_of_singleton in Hin; discriminate. }
  cbn [now fst snd]. unfold store_upsert.
  cbn [store_fault store_requests count_clock_read count_store_request
       record_effect].
  destruct (store_fault w (S (store_requests w)));
    cbn; rewrite <- app_assoc, drop_app_length; intros Hin;
    repeat (apply elem_of_cons in Hin as [Hin|Hin]; [discriminate|]);
    inversion Hin.
Qed.

Lemma billing_never_triggers u e :
  never_triggers (handleBillingIssue u e).
Proof.
  intros w u'.
  unfold handleBillingIssue, try_catch, bind, emitted.
  unfold store_select.
  destruct (store_fault w (store_requests w)).
  { cbn. rewrite drop_app_length.
    intros Hin; apply list_elem_of_singleton in Hin; discriminate. }
  destruct (db w !! (u, e)) as [row|].
  2: { cbn. rewrite drop_app_length.
       intros Hin; apply list_elem_of_singleton in Hin; discriminate. }
  cbn [now fst snd]. unfold store_upsert.
  cbn [store_fault store_requests count_clock_read count_store_request
       record_effect].
  destruct (store_fault w (S (store_requests w)));
    cbn; rewrite <- app_assoc, drop_app_length; intros Hin;
    repeat (apply elem_of_cons in Hin as [Hin|Hin]; [discriminate|]);
    inversion Hin.
Qed.

Lemma as_EventType_name (t : string) (k : EventType) :
  as_EventType t = Some k → t = EventType_name k.
Proof.
  unfold as_EventType.
  repeat match goal with
  | |- context [String.eqb t ?c] =>
      destruct (String.eqb_spec t c) as [->|_];
      [intros [= <-]; reflexivity|]
  end.
  discriminate.
Qed.

Lemma printable_of_text exp es : expiration_text exp = Ok es → printable exp.
Proof.
  intros H d ->. simpl in H. destruct (ISO.valid d); [reflexivity|discriminate].
Qed.

(** An activation that returns has printed its expiration and had its
    upsert taken. *)
Lemma activation_returned u e p pl exp tx en w :
  fst (handleSubscriptionActivation u e p pl exp tx en w) = Ok tt →
  printable exp ∧ store_fault w (S (store_requests w)) = None.
Proof.
  unfold handleSubscriptionActivation, try_catch, bind.
  rewrite expiration_string_run.
  destruct (expiration_text exp) as [es|err] eqn:He; [|discriminate].
  intros H. split; [exact (printable_of_text exp es He)|].
  destruct (store_fault w (S (store_requests w))) as [err|] eqn:Hf;
    [|reflexivity].
  exfalso. revert H. unfold store_select.
  destruct (store_fault w (store_requests w)); cbn [now fst snd];
    (erewrite store_upsert_failed; [|exact Hf]); discriminate.
Qed.

Lemma emitted_serve (req : request) (w : world) (e : event) (s : string) :
  authenticated req w →
  client_configured w →
  body req = Some e →
  store e = JStr s →
  emitted (serve req) w = emitted (selected_handler e (toLowerCase (runtime w) s)) w.
Proof.
  intros Ha Hc Hb Hst. unfold emitted.
  rewrite (serve_dispatch req w e s Ha Hc Hb Hst).
  destruct (selected_handler e (toLowerCase (runtime w) s) w) as [[?|?] ?]; reflexivity.
Qed.

Lemma processed_returned (req : request) (w : world) (e : event) (s : string) :
  authenticated req w →
  client_configured w →
  body req = Some e →
  store e = JStr s →
  fst (serve req w) =
    Ok (processed (type e) (environment e) (original_app_user_id e)) →
  fst (selected_handler e (toLowerCase (runtime w) s) w) = Ok tt.
Proof.
  intros Ha Hc Hb Hst.
  rewrite (serve_dispatch req w e s Ha Hc Hb Hst).
  destruct (selected_handler e (toLowerCase (runtime w) s) w) as [[[]|?] ?];
    [reflexivity|discriminate].
Qed.

(** When the lookup is answered, a processed event starts the trigger
    exactly when it is an activation for the premium entitlement on a key
    that had no record or an inactive one. *)
Lemma trigger_iff_new_premium_activation
    (req : request) (w : world) (e : event) (s : string) :
  authenticated req w →
  client_configured w →
  body req = Some e →
  store e = JStr s →
  store_fault w (store_requests w) = None →
  fst (serve req w) =
    Ok (processed (type e) (environment e) (original_app_user_id e)) →
  let u := original_app_user_id e in
  let ent := resolve_entitlement (entitlement_ids e) in
  InsightsTrigger u ∈ emitted (serve req) w ↔
  type e ∈ activation_event_types ∧ ent = "product_a" ∧
  is_new (db w !! (u, ent)) = true.
Proof.
  intros Ha Hc Hb Hst Hl Hok u ent.
  rewrite (emitted_serve req w e s Ha Hc Hb Hst).
  apply (processed_returned req w e s Ha Hc Hb Hst) in Hok.
  destruct (decide (type e ∈ activation_event_types)) as [Ht|Ht].
  - rewrite (activation_selected e _ Ht) in *. fold u ent in Hok |- *.
    destruct (activation_returned _ _ _ _ _ _ _ _ Hok) as [Hp Hf].
    destruct (activation_applied u ent (ev_product_id e) (toLowerCase (runtime w) s)
                (expiration_date (expiration_at_ms e)) (transaction_id e)
                (environment e) w Hp Hf)
      as (w1 & posts & Hrun & _ & _ & _ & _ & _ & Htrace & Hposts).
    erewrite emitted_app; [|rewrite Hrun; exact Htrace].
    unfold seen. rewrite Hl.
    destruct (String.eqb_spec ent "product_a") as [Hent|Hent];
      destruct (is_new (db w !! (u, ent))); cbn [andb].
    + split; [tauto|]. intros _.
      apply elem_of_cons. right. apply elem_of_cons. right.
      apply list_elem_of_here.
    + split; [|intros (_ & _ & [=])]. intros Hin.
      repeat (apply elem_of_cons in Hin as [Hin|Hin]; [discriminate|]).
      inversion Hin.
    + split; [|intros (_ & ? & _); contradiction]. intros Hin.
      repeat (apply elem_of_cons in Hin as [Hin|Hin]; [discriminate|]).
      inversion Hin.
    + split; [|intros (_ & ? & _); contradiction]. intros Hin.
      repeat (apply elem_of_cons in Hin as [Hin|Hin]; [discriminate|]).
      inversion Hin.
  - split; [|intros (? & _); contradiction].
    intros Hin. exfalso. revert Hin. unfold selected_handler.
    destruct (as_EventType (type e)) as [k|] eqn:Hk.
    + apply as_EventType_name in Hk.
      destruct k; simpl in Hk;
        try (exfalso; apply Ht; rewrite Hk; unfold activation_event_types;
             set_solver);
        [ apply cancellation_never_triggers
        | apply expiration_never_triggers
        | apply billing_never_triggers ].
    + unfold emitted, ret. cbn. rewrite drop_all. apply not_elem_of_nil.
Qed.
(** * Further properties *)

(** ** How handlers run *)

Lemma trigger_trace u w :
  trace (snd (triggerPremiumInsightsGeneration u w)) =
  trace w ++ insights_requests u w.
Proof.
  unfold triggerPremiumInsightsGeneration, try_catch, bind, note, getenv,
    fetch, await, ret, throw, insights_requests, insights_endpoint,
    insights_bearer.
  cbn [record_effect env db insights_reply trace].
  destruct (String.eqb (or_empty (env w !! "SUPABASE_URL")) "").
  - reflexivity.
  - unfold record_effect;
      cbn [db env clock clock_reads store_fault store_requests
           insights_reply trace].
    rewrite <- !app_assoc. cbn [app].
    destruct (insights_reply w) as [r|err].
    + destruct (ok r); cbn [negb].
      * destruct (json_body r) as [[id|]|]; reflexivity.
      * destruct (text_body r); reflexivity.
    + reflexivity.
Qed.

Lemma activation_refused u e p pl exp tx en w es err :
  expiration_text exp = Ok es →
  store_fault w (S (store_requests w)) = Some err →
  handleSubscriptionActivation u e p pl exp tx en w =
    (Throw err,
     refused
       (activation_payload u e p pl es tx en
          (clock w (clock_reads w)) (clock w (S (clock_reads w))))
       (activation_ready u e w)).
Proof.
  intros He Hf.
  unfold handleSubscriptionActivation, try_catch, bind.
  rewrite expiration_string_run, He.
  unfold store_select.
  destruct (store_fault w (store_requests w)); cbn [now fst snd];
    (erewrite store_upsert_failed; [|exact Hf]); reflexivity.
Qed.

Lemma activation_unprintable u e p pl exp tx en w err :
  expiration_text exp = Throw err →
  handleSubscriptionActivation u e p pl exp tx en w = (Throw err, w).
Proof.
  intros He.
  unfold handleSubscriptionActivation, try_catch, bind.
  rewrite expiration_string_run, He. reflexivity.
Qed.

Lemma emitted_nothing {A} (m : M A) (w : world) :
  trace (snd (m w)) = trace w → emitted m w = [].
Proof. intros H. unfold emitted. rewrite H. apply drop_all. Qed.

Lemma activation_shape u e p pl exp tx en w :
  let run := handleSubscriptionActivation u e p pl exp tx en in
  run_shape u e w (fst (run w)) (db (snd (run w))) (emitted run w).
Proof.
  intros run. subst run.
  destruct (expiration_text exp) as [es|err] eqn:He.
  2: { rewrite (emitted_nothing _ w);
         rewrite (activation_unprintable u e p pl exp tx en w err He);
         [apply run_silent|reflexivity]. }
  set (pay := activation_payload u e p pl es tx en
                (clock w (clock_reads w)) (clock w (S (clock_reads w)))).
  assert (Hk : keyed u e pay) by (repeat split).
  destruct (store_fault w (S (store_requests w))) as [err|] eqn:Hf.
  - rewrite (emitted_app _ w [StoreSelect "active, created_at" u e;
                              StoreUpsert pay]);
      rewrite (activation_refused u e p pl exp tx en w es err He Hf).
    + change (run_shape u e w (Throw err) (db w)
                [StoreSelect "active, created_at" u e; StoreUpsert pay]).
      apply run_refused. exact Hk.
    + unfold refused, activation_ready, looked_up. cbn.
      rewrite <- app_assoc. reflexivity.
  - pose proof (activation_run u e p pl exp tx en w es He Hf) as Hrun.
    cbv zeta in Hrun. fold pay in Hrun.
    set (w1 := written pay (activation_ready u e w)) in *.
    assert (Ht1 : trace w1 =
      trace w ++ [StoreSelect "active, created_at" u e; StoreUpsert pay]).
    { subst w1. cbn. rewrite <- app_assoc. reflexivity. }
    assert (Hd1 : db w1 = <[(u, e) := upsert_row (db w !! (u, e)) pay]> (db w)).
    { reflexivity. }
    destruct (String.eqb_spec e "product_a") as [Hent|Hent];
      destruct (is_new (seen u e w)); cbn [andb] in Hrun.
    + rewrite (emitted_app _ w
                 ([StoreSelect "active, created_at" u e; StoreUpsert pay]
                  ++ insights_requests u w)); rewrite Hrun; cbn [fst snd].
      * rewrite trigger_db, Hd1. apply run_written; [exact Hk|].
        right. repeat split. exact Hent.
      * rewrite trigger_trace, Ht1, <- app_assoc. reflexivity.
    + rewrite (emitted_app _ w
                 [StoreSelect "active, created_at" u e; StoreUpsert pay]);
        rewrite Hrun; cbn [fst snd]; [|exact Ht1].
      rewrite Hd1. apply run_written; [exact Hk|]. left. reflexivity.
    + rewrite (emitted_app _ w
                 [StoreSelect "active, created_at" u e; StoreUpsert pay]);
        rewrite Hrun; cbn [fst snd]; [|exact Ht1].
      rewrite Hd1. apply run_written; [exact Hk|]. left. reflexivity.
    + rewrite (emitted_app _ w
                 [StoreSelect "active, created_at" u e; StoreUpsert pay]);
        rewrite Hrun; cbn [fst snd]; [|exact Ht1].
      rewrite Hd1. apply run_written; [exact Hk|]. left. reflexivity.
Qed.

Lemma cancellation_shape u e exp w :
  let run := handleSubscriptionCancellation u e exp in
  run_shape u e w (fst (run w)) (db (snd (run w))) (emitted run w).
Proof.
  intros run. subst run.
  unfold handleSubscriptionCancellation, try_catch, bind, emitted.
  rewrite expiration_string_run.
  destruct (expiration_text exp) as [es|err].
  2: { cbn. rewrite drop_all. apply run_silent. }
  unfold store_select.
  destruct (store_fault w (store_requests w)).
  { cbn. rewrite drop_app_length. apply (run_lookup u e w _ "*"). }
  cbn [now fst snd]. unfold store_upsert.
  cbn [store_fault store_requests count_clock_read count_store_request
       record_effect].
  set (pay := cancellation_payload u e es (db w !! (u, e))
                (clock w (clock_reads w))).
  destruct (store_fault w (S (store_requests w))) as [err|];
    cbn; rewrite <- app_assoc, drop_app_length.
  - apply (run_refused u e w err "*" pay). repeat split.
  - apply (run_written u e w "*" pay []); [repeat split|left; reflexivity].
Qed.

Lemma expiration_shape u e w :
  let run := handleSubscriptionExpiration u e in
  run_shape u e w (fst (run w)) (db (snd (run w))) (emitted run w).
Proof.
  intros run. subst run.
  unfold handleSubscriptionExpiration, try_catch, bind, emitted.
  unfold store_select.
  destruct (store_fault w (store_requests w)).
  { cbn. rewrite drop_app_length. apply (run_lookup u e w _ "*"). }
  cbn [now fst snd]. unfold store_upsert.
  cbn [store_fault store_requests count_clock_read count_store_request
       record_effect].
  set (pay := expiration_payload u e (db w !! (u, e))
                (clock w (clock_reads w))).
  destruct (store_fault w (S (store_requests w))) as [err|];
    cbn; rewrite <- app_assoc, drop_app_length.
  - apply (run_refused u e w err "*" pay). repeat split.
  - apply (run_written u e w "*" pay []); [repeat split|left; reflexivity].
Qed.

Lemma billing_shape u e w :
  let run := handleBillingIssue u e in
  run_shape u e w (fst (run w)) (db (snd (run w))) (emitted run w).
Proof.
  intros run. subst run.
  unfold handleBillingIssue, try_catch, bind, emitted.
  unfold store_select.
  destruct (store_fault w (store_requests w)).
  { cbn. rewrite drop_app_length. apply (run_lookup u e w _ "*"). }
  destruct (db w !! (u, e)) as [row|] eqn:Hr.
  2: { cbn. rewrite drop_app_length. apply (run_lookup u e w _ "*"). }
  cbn [now fst snd]. unfold store_upsert.
  cbn [store_fault store_requests count_clock_read count_store_request
       record_effect].
  set (pay := billing_payload u e row (clock w (clock_reads w))).
  destruct (store_fault w (S (store_requests w))) as [err|];
    cbn; rewrite <- app_assoc, drop_app_length.
  - apply (run_refused u e w err "*" pay). repeat split.
  - rewrite Hr.
    pose proof (run_written u e w "*" pay [] ltac:(repeat split)
                  (or_introl eq_refl)) as H.
    rewrite Hr in H. exact H.
Qed.

(** Whatever handler the switch selects runs in one of the four ways, for
    the key of the event. *)
Lemma selected_shape (e : event) (pl : string) (w : world) :
  let run := selected_handler e pl in
  run_shape (original_app_user_id e) (resolve_entitlement (entitlement_ids e))
    w (fst (run w)) (db (snd (run w))) (emitted run w).
Proof.
  intros run. subst run. unfold selected_handler.
  destruct (as_EventType (type e)) as [[]|];
    try apply activation_shape.
  - apply cancellation_shape.
  - apply expiration_shape.
  - apply billing_shape.
  - unfold emitted, ret. cbn. rewrite drop_all. apply run_silent.
Qed.

(** ** How [serve] answers *)

(** A request is stopped at the gate, in the world as found, or is
    dispatched on its event. *)
Lemma serve_gate (req : request) (w : world) :
  (¬ authenticated req w ∧
   ∃ resp, resp ∈ gate_responses ∧ serve req w = (Ok resp, w)) ∨
  (authenticated req w ∧
   (¬ client_configured w ∨ body req = None ∨
    ∃ e, body req = Some e ∧ ∀ s, store e ≠ JStr s) ∧
   serve req w = (Ok server_error, w)) ∨
  (∃ e s,
     authenticated req w ∧ client_configured w ∧
     body req = Some e ∧ store e = JStr s).
Proof.
  unfold gate_responses.
  destruct (String.eqb_spec (method req) "OPTIONS") as [Ho|Ho].
  { left. split.
    - intros [Hm _]. rewrite Ho in Hm. discriminate.
    - exists preflight. split; [set_solver|].
      unfold serve. rewrite Ho. reflexivity. }
  destruct (String.eqb_spec (method req) "POST") as [Hm|Hm].
  2: { left. split.
       - intros [Hm' _]. contradiction.
       - exists method_not_allowed. split; [set_solver|].
         unfold serve.
         rewrite (eqb_false_of_ne _ _ Ho), (eqb_false_of_ne _ _ Hm).
         reflexivity. }
  destruct (falsy (env w !! "REVENUECAT_AUTH_HEADER")) eqn:Hcfg.
  { left. split.
    - intros (_ & secret & Hs & He & _). rewrite He in Hcfg.
      rewrite (falsy_configured _ Hs) in Hcfg. discriminate.
    - exists configuration_error. split; [set_solver|].
      apply serve_unconfigured; assumption. }
  destruct (env w !! "REVENUECAT_AUTH_HEADER") as [secret|] eqn:He;
    [|discriminate].
  assert (Hs : secret ≠ "").
  { intros ->. discriminate. }
  destruct (decide (authorization req = Some secret)) as [Ha|Ha].
  2: { left. split.
       - intros (_ & s' & _ & He' & Ha'). apply Ha. congruence.
       - exists unauthorized. split; [set_solver|].
         apply (serve_unauthorized req w secret); assumption. }
  assert (Hauth : authenticated req w).
  { split; [exact Hm|]. exists secret. repeat split; assumption. }
  right.
  destruct (String.eqb_spec (or_empty (env w !! "SUPABASE_URL")) "") as [Hu|Hu].
  { left. split; [exact Hauth|]. split.
    - left. intros [H _]. contradiction.
    - unfold serve, try_catch, bind, getenv, createClient.
      rewrite Hm. simpl. rewrite He, Ha. simpl.
      rewrite (eqb_false_of_ne _ _ Hs). simpl. rewrite eqb_refl_true. simpl.
      rewrite Hu. reflexivity. }
  destruct (String.eqb_spec (or_empty (env w !! "SUPABASE_SERVICE_ROLE_KEY")) "")
    as [Hk|Hk].
  { left. split; [exact Hauth|]. split.
    - left. intros (_ & H & _). contradiction.
    - unfold serve, try_catch, bind, getenv, createClient.
      rewrite Hm. simpl. rewrite He, Ha. simpl.
      rewrite (eqb_false_of_ne _ _ Hs). simpl. rewrite eqb_refl_true. simpl.
      rewrite (eqb_false_of_ne _ _ Hu), Hk. reflexivity. }
  destruct (URL_parses (runtime w)
              (auth_address (or_empty (env w !! "SUPABASE_URL")))) eqn:Hp.
  2: { left. split; [exact Hauth|]. split.
       - left. intros (_ & _ & H). congruence.
       - unfold serve, try_catch, bind, getenv, createClient, new_URL.
         rewrite Hm. simpl. rewrite He, Ha. simpl.
         rewrite (eqb_false_of_ne _ _ Hs). simpl. rewrite eqb_refl_true. simpl.
         rewrite (eqb_false_of_ne _ _ Hu), (eqb_false_of_ne _ _ Hk).
         fold (auth_address (or_empty (env w !! "SUPABASE_URL"))).
         rewrite Hp. reflexivity. }
  destruct (body req) as [e|] eqn:Hb.
  2: { left. split; [exact Hauth|]. split.
       - right. left. reflexivity.
       - unfold serve, try_catch, bind, getenv, createClient, new_URL,
           parse_event.
         rewrite Hm. simpl. rewrite He, Ha. simpl.
         rewrite (eqb_false_of_ne _ _ Hs). simpl. rewrite eqb_refl_true. simpl.
         rewrite (eqb_false_of_ne _ _ Hu), (eqb_false_of_ne _ _ Hk).
         fold (auth_address (or_empty (env w !! "SUPABASE_URL"))).
         rewrite Hp, Hb. reflexivity. }
  destruct (store e) as [| | | |s] eqn:Hst.
  5: { right. exists e, s. split; [exact Hauth|].
       split; [repeat split; assumption|]. split; [reflexivity|exact Hst]. }
  all: left; split; [exact Hauth|]; split;
    [ right; right; exists e; split; [reflexivity|]; intros s; rewrite Hst;
      discriminate
    | unfold serve, try_catch, bind, getenv, createClient, new_URL,
        parse_event;
      rewrite Hm; simpl; rewrite He, Ha; simpl;
      rewrite (eqb_false_of_ne _ _ Hs); simpl; rewrite eqb_refl_true; simpl;
      rewrite (eqb_false_of_ne _ _ Hu), (eqb_false_of_ne _ _ Hk);
      fold (auth_address (or_empty (env w !! "SUPABASE_URL")));
      rewrite Hp, Hb;
      unfold ret; rewrite Hst; reflexivity ].
Qed.

Lemma shape_throw_db u e w err d l :
  run_shape u e w (Throw err) d l → d = db w.
Proof. inversion 1; reflexivity. Qed.

Lemma shape_frame u e w o d l (k : string * string) :
  run_shape u e w o d l → k ≠ (u, e) → d !! k = db w !! k.
Proof.
  intros H Hk. inversion H; subst; try reflexivity.
  apply lookup_insert_ne. congruence.
Qed.

Lemma shape_rows_keyed u e w o d l :
  run_shape u e w o d l → rows_keyed (db w) → rows_keyed d.
Proof.
  intros H Hinv. inversion H as [ | | |c p rest (Hp & He & Hr) _]; subst;
    try exact Hinv.
  intros k row Hk.
  destruct (decide ((p_profile_id p, p_permission_id p) = k)) as [<-|Hne].
  - rewrite lookup_insert_eq in Hk. injection Hk as <-. cbn.
    rewrite Hr. split; reflexivity.
  - rewrite lookup_insert_ne in Hk by exact Hne. exact (Hinv k row Hk).
Qed.

Ltac in_list :=
  repeat first [apply list_elem_of_here | apply list_elem_of_further].

Lemma gate_status (resp : response) :
  resp ∈ gate_responses → status resp ∈ [204; 405; 500; 401].
Proof.
  unfold gate_responses. intros H.
  repeat (apply elem_of_cons in H as [->|H]; [cbn; in_list|]).
  inversion H.
Qed.

(** X1. [serve] answers every request: whatever the request, the failures
    of the store and the reply of the insights endpoint, it returns a
    response and never throws, and the status is 200, 204, 401, 405 or
    500. *)
Theorem serve_always_answers (req : request) (w : world) :
  ∃ resp w',
    serve req w = (Ok resp, w') ∧ status resp ∈ [200; 204; 401; 405; 500].
Proof.
  destruct (serve_gate req w)
    as [(_ & resp & Hin & Hrun)|[(_ & _ & Hrun)|(e & s & Ha & Hc & Hb & Hst)]].
  - exists resp, w. split; [exact Hrun|].
    apply gate_status in Hin.
    repeat (apply elem_of_cons in Hin as [->|Hin]; [in_list|]).
    inversion Hin.
  - exists server_error, w. split; [exact Hrun|]. cbn. in_list.
  - rewrite (serve_dispatch req w e s Ha Hc Hb Hst).
    destruct (selected_handler e (toLowerCase (runtime w) s) w) as [[[]|err] w'].
    + eexists _, w'. split; [reflexivity|]. cbn. in_list.
    + exists server_error, w'. split; [reflexivity|]. cbn. in_list.
Qed.

(** X2. A request that does not carry the configured secret in a POST
    (any other method, an absent or different Authorization header, or no
    secret configured) is answered 204, 405, 500 or 401 and leaves the
    world as it found it: nothing is read from or written to the store and
    nothing is sent to the insights endpoint. *)
Theorem request_without_secret_changes_nothing (req : request) (w : world) :
  ¬ authenticated req w →
  ∃ resp, serve req w = (Ok resp, w) ∧ status resp ∈ [204; 405; 500; 401].
Proof.
  intros Hn.
  destruct (serve_gate req w)
    as [(_ & resp & Hin & Hrun)|[(Ha & _)|(e & s & Ha & _)]];
    [|contradiction|contradiction].
  exists resp. split; [exact Hrun|]. apply gate_status. exact Hin.
Qed.

Lemma request_without_secret_changes_nothing_witness :
  (¬ authenticated get_request subscribed_deployment) ∧
  ∃ resp,
    serve get_request subscribed_deployment = (Ok resp, subscribed_deployment) ∧
    status resp ∈ [204; 405; 500; 401].
Proof.
  assert (Hn : ¬ authenticated get_request subscribed_deployment).
  { intros [Hm _]. discriminate Hm. }
  split; [exact Hn|].
  exact (request_without_secret_changes_nothing
           get_request subscribed_deployment Hn).
Defined.

(** X3. A request that is not answered 200 has not changed the table: an
    error thrown by a handler, after a failed lookup or a refused upsert,
    never leaves a partial write behind. *)
Theorem failed_request_leaves_table
    (req : request) (w : world) (resp : response) (w' : world) :
  serve req w = (Ok resp, w') →
  status resp ≠ 200 →
  db w' = db w.
Proof.
  intros Hrun Hst.
  destruct (serve_gate req w)
    as [(_ & r & _ & Hg)|[(_ & _ & Hg)|(e & s & Ha & Hc & Hb & Hs)]].
  - rewrite Hg in Hrun. injection Hrun as _ <-. reflexivity.
  - rewrite Hg in Hrun. injection Hrun as _ <-. reflexivity.
  - rewrite (serve_dispatch req w e s Ha Hc Hb Hs) in Hrun.
    pose proof (selected_shape e (toLowerCase (runtime w) s) w) as Hshape.
    cbv zeta in Hshape.
    destruct (selected_handler e (toLowerCase (runtime w) s) w) as [[[]|err] w1].
    + injection Hrun as <- _. exfalso. apply Hst. reflexivity.
    + injection Hrun as _ <-. cbn [fst snd] in Hshape.
      exact (shape_throw_db _ _ _ _ _ _ Hshape).
Qed.

Lemma failed_request_leaves_table_witness :
  fst (serve renewal_post write_fails_world) = Ok server_error ∧
  status server_error ≠ 200 ∧
  db (snd (serve renewal_post write_fails_world)) = db write_fails_world.
Proof.
  assert (Hfst : fst (serve renewal_post write_fails_world) = Ok server_error).
  { vm_compute. reflexivity. }
  assert (Hrun : serve renewal_post write_fails_world =
                 (Ok server_error, snd (serve renewal_post write_fails_world))).
  { destruct (serve renewal_post write_fails_world) as [o w'].
    cbn [fst snd] in *. rewrite Hfst. reflexivity. }
  assert (Hst : status server_error ≠ 200) by discriminate.
  split; [exact Hfst|]. split; [exact Hst|].
  exact (failed_request_leaves_table renewal_post write_fails_world
           server_error _ Hrun Hst).
Defined.

(** X4. A request changes at most the row of its event's key, the pair of
    [original_app_user_id] and the resolved entitlement: every other row of
    the table is as before, whatever the outcome. *)
Theorem only_the_event_key_changes
    (req : request) (w : world) (k : string * string) :
  (∀ e, body req = Some e → k ≠ event_key e) →
  db (snd (serve req w)) !! k = db w !! k.
Proof.
  intros Hk.
  destruct (serve_gate req w)
    as [(_ & r & _ & Hg)|[(_ & _ & Hg)|(e & s & Ha & Hc & Hb & Hs)]].
  - rewrite Hg. reflexivity.
  - rewrite Hg. reflexivity.
  - pose proof (selected_shape e (toLowerCase (runtime w) s) w) as Hshape.
    cbv zeta in Hshape.
    rewrite (serve_dispatch req w e s Ha Hc Hb Hs).
    assert (Hd : db (snd (match selected_handler e (toLowerCase (runtime w) s) w with
                          | (Ok _, w1) =>
                              (Ok (processed (type e) (environment e)
                                     (original_app_user_id e)), w1)
                          | (Throw _, w1) => (Ok server_error, w1)
                          end)) =
                 db (snd (selected_handler e (toLowerCase (runtime w) s) w))).
    { destruct (selected_handler e (toLowerCase (runtime w) s) w) as [[?|?] ?];
        reflexivity. }
    rewrite Hd.
    exact (shape_frame _ _ _ _ _ _ k Hshape (Hk e Hb)).
Qed.

Lemma only_the_event_key_changes_witness :
  (∀ e, body purchase_post = Some e → ("u2", "product_a") ≠ event_key e) ∧
  db (snd (serve purchase_post fresh_deployment)) !! ("u2", "product_a") =
    db fresh_deployment !! ("u2", "product_a").
Proof.
  assert (Hk : ∀ e, body purchase_post = Some e →
                    ("u2", "product_a") ≠ event_key e).
  { intros e [= <-]. discriminate. }
  split; [exact Hk|].
  exact (only_the_event_key_changes purchase_post fresh_deployment
           ("u2", "product_a") Hk).
Defined.

(** X5. [serve] keeps the table well keyed: if every row sits under the
    key its [profile_id] and [permission_id] name and carries its
    [profile_id] as [revenuecat_user_id], the same holds after any
    request. *)
Theorem serve_keeps_rows_keyed (req : request) (w : world) :
  rows_keyed (db w) → rows_keyed (db (snd (serve req w))).
Proof.
  intros Hinv.
  destruct (serve_gate req w)
    as [(_ & r & _ & Hg)|[(_ & _ & Hg)|(e & s & Ha & Hc & Hb & Hs)]].
  - rewrite Hg. exact Hinv.
  - rewrite Hg. exact Hinv.
  - pose proof (selected_shape e (toLowerCase (runtime w) s) w) as Hshape.
    cbv zeta in Hshape.
    rewrite (serve_dispatch req w e s Ha Hc Hb Hs).
    destruct (selected_handler e (toLowerCase (runtime w) s) w) as [[?|?] w1];
      cbn [fst snd] in *;
      exact (shape_rows_keyed _ _ _ _ _ _ Hshape Hinv).
Qed.

Lemma sample_table_keyed : rows_keyed sample_table.
Proof.
  intros k row Hk. unfold sample_table in Hk.
  apply lookup_singleton_Some in Hk as [<- <-]. split; reflexivity.
Qed.

Lemma serve_keeps_rows_keyed_witness :
  rows_keyed (db subscribed_deployment) ∧
  rows_keyed (db (snd (serve renewal_post subscribed_deployment))).
Proof.
  split; [exact sample_table_keyed|].
  exact (serve_keeps_rows_keyed renewal_post subscribed_deployment
           sample_table_keyed).
Defined.

(** ** The trigger and its post *)

Lemma emitted_selected_activation (e : event) (pl : string) (w : world) :
  type e ∈ activation_event_types →
  emitted (selected_handler e pl) w =
  emitted (handleSubscriptionActivation (original_app_user_id e)
             (resolve_entitlement (entitlement_ids e)) (ev_product_id e) pl
             (expiration_date (expiration_at_ms e)) (transaction_id e)
             (environment e)) w.
Proof. intros Ht. rewrite (activation_selected e pl Ht). reflexivity. Qed.

(** The switch starts the trigger only from an activation arm. *)
Lemma selected_trigger_activation (e : event) (pl : string) (w : world) u :
  InsightsTrigger u ∈ emitted (selected_handler e pl) w →
  type e ∈ activation_event_types.
Proof.
  unfold selected_handler.
  destruct (as_EventType (type e)) as [k|] eqn:Hk.
  - apply as_EventType_name in Hk.
    destruct k; simpl in Hk; intros Hin;
      try (rewrite Hk; unfold activation_event_types; in_list).
    + exfalso. exact (cancellation_never_triggers _ _ _ w u Hin).
    + exfalso. exact (expiration_never_triggers _ _ w u Hin).
    + exfalso. exact (billing_never_triggers _ _ w u Hin).
  - unfold emitted, ret. cbn. rewrite drop_all. intros Hin. inversion Hin.
Qed.

Lemma shape_trigger u e w o d l u' :
  run_shape u e w o d l →
  InsightsTrigger u' ∈ l →
  u' = u ∧ e = "product_a" ∧ o = Ok tt ∧
  ∃ row, d !! (u, e) = Some row ∧ active row = true.
Proof.
  intros H Hin.
  inversion H as [ | | |c p rest Hkey Hrest]; subst.
  - inversion Hin.
  - apply list_elem_of_singleton in Hin. discriminate.
  - repeat (apply elem_of_cons in Hin as [Hin|Hin]; [discriminate|]).
    inversion Hin.
  - repeat (apply elem_of_cons in Hin as [Hin|Hin]; [discriminate|]).
    destruct Hrest as [->|(He & Hact & ->)]; [inversion Hin|].
    unfold insights_requests in Hin.
    apply elem_of_cons in Hin as [Hin|Hin].
    + injection Hin as ->. repeat split; [exact He|].
      eexists. split; [apply lookup_insert_eq|]. exact Hact.
    + destruct (String.eqb _ ""); [inversion Hin|].
      apply list_elem_of_singleton in Hin. discriminate.
Qed.

Lemma shape_post u e w o d l url bearer uid trg :
  run_shape u e w o d l →
  InsightsPost url bearer uid trg ∈ l →
  url = insights_endpoint w ∧ bearer = insights_bearer w ∧ uid = u ∧
  trg = "purchase_webhook" ∧ InsightsTrigger u ∈ l.
Proof.
  intros H Hin.
  inversion H as [ | | |c p rest Hkey Hrest]; subst.
  - inversion Hin.
  - apply list_elem_of_singleton in Hin. discriminate.
  - repeat (apply elem_of_cons in Hin as [Hin|Hin]; [discriminate|]).
    inversion Hin.
  - repeat (apply elem_of_cons in Hin as [Hin|Hin]; [discriminate|]).
    destruct Hrest as [->|(He & Hact & ->)]; [inversion Hin|].
    unfold insights_requests in *.
    apply elem_of_cons in Hin as [Hin|Hin]; [discriminate|].
    destruct (String.eqb _ ""); [inversion Hin|].
    apply list_elem_of_singleton in Hin. injection Hin as -> -> -> ->.
    repeat split. in_list.
Qed.

(** X6. The insights trigger is started only by a processed activation of
    the premium entitlement: if a request starts it, the request is
    authenticated, its event has one of the four activation types and
    resolves to ["product_a"], the trigger is for the event's user, the
    lookup handed back no active record, the answer is the 200 success
    payload and the table then holds an active record for the key.  This
    holds on every path, failing store requests included. *)
Theorem trigger_only_after_premium_activation
    (req : request) (w : world) (u : string) :
  InsightsTrigger u ∈ emitted (serve req) w →
  ∃ e,
    authenticated req w ∧
    body req = Some e ∧
    u = original_app_user_id e ∧
    type e ∈ activation_event_types ∧
    resolve_entitlement (entitlement_ids e) = "product_a" ∧
    is_new (seen u "product_a" w) = true ∧
    fst (serve req w) = Ok (processed (type e) (environment e) u) ∧
    ∃ row,
      db (snd (serve req w)) !! (u, "product_a") = Some row ∧
      active row = true.
Proof.
  intros Hin.
  destruct (serve_gate req w)
    as [(_ & r & _ & Hg)|[(_ & _ & Hg)|(e & s & Ha & Hc & Hb & Hs)]].
  - rewrite (emitted_nothing (serve req) w) in Hin by (rewrite Hg; reflexivity).
    inversion Hin.
  - rewrite (emitted_nothing (serve req) w) in Hin by (rewrite Hg; reflexivity).
    inversion Hin.
  - rewrite (emitted_serve req w e s Ha Hc Hb Hs) in Hin.
    pose proof (selected_trigger_activation e _ w u Hin) as Ht.
    pose proof (selected_shape e (toLowerCase (runtime w) s) w) as Hshape.
    cbv zeta in Hshape.
    destruct (shape_trigger _ _ _ _ _ _ u Hshape Hin)
      as (-> & Hent & Hok & row & Hrow & Hact).
    exists e. split; [exact Ha|]. split; [exact Hb|]. split; [reflexivity|].
    split; [exact Ht|]. split; [exact Hent|].
    rewrite (serve_dispatch req w e s Ha Hc Hb Hs).
    rewrite Hent in Hrow.
    split.
    + rewrite (emitted_selected_activation e _ w Ht) in Hin.
      rewrite (activation_selected e _ Ht) in Hok.
      destruct (activation_returned _ _ _ _ _ _ _ _ Hok) as [Hp Hf].
      destruct (activation_applied (original_app_user_id e)
                  (resolve_entitlement (entitlement_ids e)) (ev_product_id e)
                  (toLowerCase (runtime w) s) (expiration_date (expiration_at_ms e))
                  (transaction_id e) (environment e) w Hp Hf)
        as (w1 & posts & Hrun & _ & _ & _ & _ & _ & Htrace & _).
      erewrite emitted_app in Hin; [|rewrite Hrun; exact Htrace].
      rewrite Hent in Hin.
      destruct (is_new (seen (original_app_user_id e) "product_a" w));
        [reflexivity|].
      rewrite andb_false_r in Hin.
      repeat (apply elem_of_cons in Hin as [Hin|Hin]; [discriminate|]).
      inversion Hin.
    + destruct (selected_handler e (toLowerCase (runtime w) s) w) as [[[]|err] w1];
        cbn [fst snd] in *; [|discriminate].
      split; [reflexivity|]. exists row. split; assumption.
Qed.

Lemma purchase_emitted :
  emitted (serve purchase_post) fresh_deployment =
    [StoreSelect "active, created_at" "u1" "product_a";
     StoreUpsert
       (activation_payload "u1" "product_a" "p1" "app_store"
          (Some "2030-01-01T00:00:00.000Z") "t1" "PRODUCTION"
          "2023-11-14T22:13:20.000Z" "2023-11-14T22:13:21.000Z");
     InsightsTrigger "u1";
     InsightsPost
       "https://golf.supabase.co/functions/v1/analyze-golf-performance"
       "Bearer service-role-key" "u1" "purchase_webhook"].
Proof. vm_compute. reflexivity. Qed.

Lemma trigger_only_after_premium_activation_witness :
  InsightsTrigger "u1" ∈ emitted (serve purchase_post) fresh_deployment ∧
  ∃ e,
    body purchase_post = Some e ∧
    type e ∈ activation_event_types ∧
    fst (serve purchase_post fresh_deployment) =
      Ok (processed (type e) (environment e) "u1").
Proof.
  assert (Hin : InsightsTrigger "u1" ∈
                emitted (serve purchase_post) fresh_deployment).
  { rewrite purchase_emitted. in_list. }
  split; [exact Hin|].
  destruct (trigger_only_after_premium_activation
              purchase_post fresh_deployment "u1" Hin)
    as (e & _ & Hb & _ & Ht & _ & _ & Hok & _).
  exists e. split; [exact Hb|]. split; [exact Ht|exact Hok].
Defined.

(** X7. Every post to the insights endpoint goes to the configured
    function URL with the service key as bearer, is tagged
    ["purchase_webhook"], names the user of the request's event, and
    follows a started trigger for that user. *)
Theorem insights_post_is_for_the_event_user
    (req : request) (w : world) (url bearer uid trg : string) :
  InsightsPost url bearer uid trg ∈ emitted (serve req) w →
  url = insights_endpoint w ∧
  bearer = insights_bearer w ∧
  trg = "purchase_webhook" ∧
  InsightsTrigger uid ∈ emitted (serve req) w ∧
  ∃ e, body req = Some e ∧ uid = original_app_user_id e.
Proof.
  intros Hin.
  destruct (serve_gate req w)
    as [(_ & r & _ & Hg)|[(_ & _ & Hg)|(e & s & Ha & Hc & Hb & Hs)]].
  - rewrite (emitted_nothing (serve req) w) in Hin by (rewrite Hg; reflexivity).
    inversion Hin.
  - rewrite (emitted_nothing (serve req) w) in Hin by (rewrite Hg; reflexivity).
    inversion Hin.
  - rewrite (emitted_serve req w e s Ha Hc Hb Hs) in *.
    pose proof (selected_shape e (toLowerCase (runtime w) s) w) as Hshape.
    cbv zeta in Hshape.
    destruct (shape_post _ _ _ _ _ _ _ _ _ _ Hshape Hin)
      as (-> & -> & -> & -> & Htrig).
    repeat split; [exact Htrig|]. exists e. split; [exact Hb|reflexivity].
Qed.

Lemma insights_post_is_for_the_event_user_witness :
  InsightsPost
    "https://golf.supabase.co/functions/v1/analyze-golf-performance"
    "Bearer service-role-key" "u1" "purchase_webhook"
    ∈ emitted (serve purchase_post) fresh_deployment ∧
  InsightsTrigger "u1" ∈ emitted (serve purchase_post) fresh_deployment.
Proof.
  assert (Hin : InsightsPost
    "https://golf.supabase.co/functions/v1/analyze-golf-performance"
    "Bearer service-role-key" "u1" "purchase_webhook"
    ∈ emitted (serve purchase_post) fresh_deployment).
  { rewrite purchase_emitted. in_list. }
  split; [exact Hin|].
  exact (proj1 (proj2 (proj2 (proj2
    (insights_post_is_for_the_event_user purchase_post fresh_deployment
       _ _ _ _ Hin))))).
Defined.

(** X8. What a request sends is bounded and ordered: nothing at all, or
    one lookup of the event's key, or that lookup followed by one upsert
    for the same key, after which the only further requests can be the
    start of the trigger and its post.  There is never a second upsert,
    never an upsert before the lookup, and never an insights request
    without an upsert before it. *)
Theorem serve_sends_lookup_then_upsert (req : request) (w : world) :
  emitted (serve req) w = [] ∨
  ∃ e c,
    body req = Some e ∧
    let u := original_app_user_id e in
    let ent := resolve_entitlement (entitlement_ids e) in
    emitted (serve req) w = [StoreSelect c u ent] ∨
    ∃ p,
      keyed u ent p ∧
      (emitted (serve req) w = [StoreSelect c u ent; StoreUpsert p] ∨
       emitted (serve req) w =
         StoreSelect c u ent :: StoreUpsert p :: insights_requests u w).
Proof.
  destruct (serve_gate req w)
    as [(_ & r & _ & Hg)|[(_ & _ & Hg)|(e & s & Ha & Hc & Hb & Hs)]].
  - left. apply emitted_nothing. rewrite Hg. reflexivity.
  - left. apply emitted_nothing. rewrite Hg. reflexivity.
  - rewrite (emitted_serve req w e s Ha Hc Hb Hs).
    pose proof (selected_shape e (toLowerCase (runtime w) s) w) as Hshape.
    cbv zeta in Hshape.
    inversion Hshape as [o Ho Hd Hl|o c Ho Hd Hl|err c p Hk Ho Hd Hl
                        |c p rest Hk Hrest Ho Hd Hl].
    + left. reflexivity.
    + right. exists e, c. split; [exact Hb|]. left. reflexivity.
    + right. exists e, c. split; [exact Hb|]. right. exists p.
      split; [exact Hk|]. left. reflexivity.
    + right. exists e, c. split; [exact Hb|]. right. exists p.
      split; [exact Hk|].
      destruct Hrest as [->|(_ & _ & ->)]; [left|right]; reflexivity.
Qed.

(** ** Edge cases of the handlers *)

(** X9. A CANCELLATION or an EXPIRATION for a key that has no record
    does not fail: with the store answering, the handler returns and the
    table then holds a record for the key.  After a cancellation it is
    active, with the event's expiration and metadata of exactly status
    ["cancelled"], the cancellation time and the source; after an
    expiration it is inactive, with metadata of exactly status
    ["expired"], the expiration time and the source. *)
Theorem lifecycle_event_for_unknown_key_creates_record
    (u e : string) (w : world) :
  store_answers w →
  db w !! (u, e) = None →
  (∀ exp, printable exp →
     ∃ w' row,
       handleSubscriptionCancellation u e exp w = (Ok tt, w') ∧
       db w' !! (u, e) = Some row ∧
       active row = true ∧
       expires_at row = ISO.format <$> exp ∧
       revenuecat_user_id row = Some u ∧
       metadata row =
         Some (cancellation_metadata ∅ (clock w (clock_reads w)))) ∧
  (∃ w' row,
     handleSubscriptionExpiration u e w = (Ok tt, w') ∧
     db w' !! (u, e) = Some row ∧
     active row = false ∧
     revenuecat_user_id row = Some u ∧
     metadata row =
       Some (expiration_metadata ∅ (clock w (clock_reads w)))).
Proof.
  intros Hs Hn. split.
  - intros exp Hp.
    rewrite (cancellation_run u e exp w _
               (expiration_text_printable exp Hp) (Hs _) (Hs _)).
    eexists _, _. split; [reflexivity|].
    rewrite db_written. cbn [p_profile_id p_permission_id cancellation_payload].
    rewrite lookup_insert_eq. split; [reflexivity|].
    cbn. rewrite Hn. cbn.
    split; [reflexivity|]. split; [apply write_nullable|].
    split; reflexivity.
  - rewrite (expiration_run u e w (Hs _) (Hs _)).
    eexists _, _. split; [reflexivity|].
    rewrite db_written. cbn [p_profile_id p_permission_id expiration_payload].
    rewrite lookup_insert_eq. split; [reflexivity|].
    cbn. rewrite Hn. cbn.
    repeat split.
Qed.

Lemma lifecycle_event_for_unknown_key_creates_record_witness :
  store_answers fresh_deployment ∧
  db fresh_deployment !! ("u1", "product_a") = None ∧
  ∃ w' row,
    handleSubscriptionExpiration "u1" "product_a" fresh_deployment =
      (Ok tt, w') ∧
    db w' !! ("u1", "product_a") = Some row ∧
    active row = false.
Proof.
  split; [apply sample_store_answers|].
  split; [apply lookup_empty|].
  destruct (lifecycle_event_for_unknown_key_creates_record
              "u1" "product_a" fresh_deployment
              (sample_store_answers ∅) (lookup_empty _))
    as (_ & w' & row & Hrun & Hrow & Hact & _).
  exists w', row. split; [exact Hrun|]. split; [exact Hrow|exact Hact].
Defined.

Lemma unprintable_text (ms : Z) :
  ISO.valid ms = false →
  expiration_text (expiration_date (Some ms)) =
    Throw "RangeError: Invalid time value".
Proof.
  intros Hv. unfold expiration_date.
  destruct (Z.eqb_spec ms 0) as [->|_]; [discriminate Hv|].
  simpl. rewrite Hv. reflexivity.
Qed.

Lemma cancellation_unprintable u e exp w err :
  expiration_text exp = Throw err →
  handleSubscriptionCancellation u e exp w = (Throw err, w).
Proof.
  intros He.
  unfold handleSubscriptionCancellation, try_catch, bind.
  rewrite expiration_string_run, He. reflexivity.
Qed.

(** An authenticated request to a deployment whose store client cannot be
    created is answered with the generic 500 in the world as found. *)
Lemma serve_client_refused (req : request) (w : world) :
  authenticated req w →
  ¬ client_configured w →
  serve req w = (Ok server_error, w).
Proof.
  intros Ha Hn.
  destruct (serve_gate req w)
    as [(Hna & _)|[(_ & _ & Hg)|(e & s & _ & Hc & _)]].
  - contradiction.
  - exact Hg.
  - contradiction.
Qed.

(** With a store URL that is no URL, [createClient] throws: an event of an
    unknown type is not acknowledged but answered with the generic 500,
    and nothing is sent. *)
Example scenario_store_url_is_no_url :
  or_empty (env misaddressed_deployment !! "SUPABASE_URL") = "golf" ∧
  serve transfer_post misaddressed_deployment =
    (Ok server_error, misaddressed_deployment).
Proof.
  split; [reflexivity|].
  apply serve_client_refused.
  - split; [reflexivity|]. exists "whsec_7f3a".
    split; [discriminate|]. split; reflexivity.
  - intros (_ & _ & H). discriminate H.
Qed.

Lemma client_configured_dec (w : world) :
  client_configured w ∨ ¬ client_configured w.
Proof.
  unfold client_configured.
  destruct (decide (or_empty (env w !! "SUPABASE_URL") = "")) as [Hu|Hu];
    [right; tauto|].
  destruct (decide (or_empty (env w !! "SUPABASE_SERVICE_ROLE_KEY") = ""))
    as [Hk|Hk]; [right; tauto|].
  destruct (URL_parses (runtime w)
              (auth_address (or_empty (env w !! "SUPABASE_URL")))).
  - left. tauto.
  - right. intros (_ & _ & H). discriminate.
Qed.

(** X10. An expiration time that no [Date] can hold (beyond 8.64e15 ms
    from the epoch) makes an activation or a cancellation fail before the
    store is touched: the answer is the generic 500 and the world is as
    found.  An EXPIRATION or a BILLING_ISSUE never prints the event's
    expiration: it is handled exactly as the same event without one.
    Both hold whether or not the store client can be created. *)
Theorem unprintable_expiration_fails_before_store
    (req : request) (w : world) (e : event) (s : string) (ms : Z) :
  authenticated req w →
  body req = Some e →
  store e = JStr s →
  expiration_at_ms e = Some ms →
  ISO.valid ms = false →
  (type e ∈ activation_event_types ∨ type e = "CANCELLATION" →
   serve req w = (Ok server_error, w)) ∧
  (type e = "EXPIRATION" ∨ type e = "BILLING_ISSUE" →
   serve req w = serve (with_event req (without_expiration e)) w).
Proof.
  intros Ha Hb Hst Hms Hv.
  destruct (client_configured_dec w) as [Hc|Hn].
  2: { rewrite (serve_client_refused req w Ha Hn).
       rewrite (serve_client_refused (with_event req (without_expiration e))
                  w Ha Hn).
       split; reflexivity. }
  split.
  - intros Ht.
    rewrite (serve_dispatch req w e s Ha Hc Hb Hst).
    destruct Ht as [Ht|Ht].
    + rewrite (activation_selected e _ Ht), Hms.
      rewrite (activation_unprintable _ _ _ _ _ _ _ w _ (unprintable_text ms Hv)).
      reflexivity.
    + unfold selected_handler. rewrite Ht.
      change (as_EventType "CANCELLATION") with (Some CANCELLATION).
      cbv beta iota zeta. rewrite Hms.
      rewrite (cancellation_unprintable _ _ _ w _ (unprintable_text ms Hv)).
      reflexivity.
  - intros Ht.
    assert (Ha' : authenticated (with_event req (without_expiration e)) w)
      by exact Ha.
    rewrite (serve_dispatch req w e s Ha Hc Hb Hst).
    rewrite (serve_dispatch (with_event req (without_expiration e)) w
               (without_expiration e) s Ha' Hc eq_refl Hst).
    unfold selected_handler. cbn [type without_expiration].
    destruct Ht as [-> | ->]; reflexivity.
Qed.

Lemma unprintable_expiration_fails_before_store_witness :
  authenticated unprintable_post fresh_deployment ∧
  client_configured fresh_deployment ∧
  ISO.valid 10000000000000000 = false ∧
  serve unprintable_post fresh_deployment = (Ok server_error, fresh_deployment).
Proof.
  split; [apply sample_authenticated|].
  split; [apply sample_client_configured|].
  split; [reflexivity|].
  apply (proj1 (unprintable_expiration_fails_before_store
                  unprintable_post fresh_deployment unprintable_cancellation
                  "APP_STORE" 10000000000000000
                  (sample_authenticated ∅ unprintable_cancellation)
                  eq_refl eq_refl eq_refl eq_refl)).
  right. reflexivity.
Defined.

Lemma cancellation_lookup_failed u e exp w es err :
  expiration_text exp = Ok es →
  store_fault w (store_requests w) = Some err →
  handleSubscriptionCancellation u e exp w = (Throw err, looked_up "*" u e w).
Proof.
  intros He Hl.
  unfold handleSubscriptionCancellation, try_catch, bind.
  rewrite expiration_string_run, He.
  rewrite (store_select_failed _ _ _ _ err Hl). reflexivity.
Qed.

Lemma expiration_lookup_failed u e w err :
  store_fault w (store_requests w) = Some err →
  handleSubscriptionExpiration u e w = (Throw err, looked_up "*" u e w).
Proof.
  intros Hl.
  unfold handleSubscriptionExpiration, try_catch, bind.
  rewrite (store_select_failed _ _ _ _ err Hl). reflexivity.
Qed.

Lemma billing_lookup_failed u e w err :
  store_fault w (store_requests w) = Some err →
  handleBillingIssue u e w = (Throw err, looked_up "*" u e w).
Proof.
  intros Hl.
  unfold handleBillingIssue, try_catch, bind.
  rewrite (store_select_failed _ _ _ _ err Hl). reflexivity.
Qed.

(** X11. On a deployment whose store client can be created (a service
    key and a store URL that [createClient] accepts), when the lookup of a
    CANCELLATION, EXPIRATION or BILLING_ISSUE event fails, the handler
    stops there: the answer is the generic 500, the lookup is the only
    request sent, no upsert is attempted and the table is unchanged. *)
Theorem failed_lookup_aborts_event
    (req : request) (w : world) (e : event) (s err : string) :
  authenticated req w →
  client_configured w →
  body req = Some e →
  store e = JStr s →
  type e ∈ guarded_event_types →
  printable (expiration_date (expiration_at_ms e)) →
  store_fault w (store_requests w) = Some err →
  ∃ w',
    serve req w = (Ok server_error, w') ∧
    db w' = db w ∧
    emitted (serve req) w =
      [StoreSelect "*" (original_app_user_id e)
         (resolve_entitlement (entitlement_ids e))].
Proof.
  intros Ha Hc Hb Hst Ht Hp Hl.
  rewrite (emitted_serve req w e s Ha Hc Hb Hst).
  rewrite (serve_dispatch req w e s Ha Hc Hb Hst).
  assert (Hrun : selected_handler e (toLowerCase (runtime w) s) w =
                 (Throw err,
                  looked_up "*" (original_app_user_id e)
                    (resolve_entitlement (entitlement_ids e)) w)).
  { unfold selected_handler, guarded_event_types in *.
    repeat (apply elem_of_cons in Ht as [->|Ht]).
    - apply (cancellation_lookup_failed _ _ _ w _ err
               (expiration_text_printable _ Hp) Hl).
    - apply (expiration_lookup_failed _ _ w err Hl).
    - apply (billing_lookup_failed _ _ w err Hl).
    - inversion Ht. }
  eexists. rewrite Hrun. split; [reflexivity|]. split; [reflexivity|].
  apply emitted_app. rewrite Hrun. reflexivity.
Qed.

Lemma failed_lookup_aborts_event_witness :
  authenticated expiration_post lookup_fails_world ∧
  client_configured lookup_fails_world ∧
  store_fault lookup_fails_world (store_requests lookup_fails_world) =
    Some "FetchError: connection reset" ∧
  ∃ w',
    serve expiration_post lookup_fails_world = (Ok server_error, w') ∧
    db w' = db lookup_fails_world.
Proof.
  assert (Ha : authenticated expiration_post lookup_fails_world).
  { split; [reflexivity|]. exists "whsec_7f3a".
    split; [discriminate|]. split; reflexivity. }
  assert (Hc : client_configured lookup_fails_world).
  { split; [vm_compute; discriminate|].
    split; [vm_compute; discriminate|reflexivity]. }
  assert (Ht : type (sample_event "EXPIRATION" (JStr "APP_STORE"))
               ∈ guarded_event_types).
  { unfold guarded_event_types. simpl. in_list. }
  split; [exact Ha|]. split; [exact Hc|]. split; [reflexivity|].
  destruct (failed_lookup_aborts_event expiration_post lookup_fails_world
              (sample_event "EXPIRATION" (JStr "APP_STORE")) "APP_STORE"
              "FetchError: connection reset" Ha Hc eq_refl eq_refl Ht
              (printable_sample 1893456000000 eq_refl) eq_refl)
    as (w' & Hrun & Hdb & _).
  exists w'. split; [exact Hrun|exact Hdb].
Defined.

(** X12. An authenticated POST whose body does not parse into an event
    envelope, or that arrives on a deployment without the store's key or
    without a store URL that [createClient] accepts (none, or one whose
    authentication address does not parse), is answered with the generic
    500 and the world is as found. *)
Theorem unreadable_request_is_server_error (req : request) (w : world) :
  authenticated req w →
  ¬ client_configured w ∨ body req = None →
  serve req w = (Ok server_error, w).
Proof.
  intros Ha Hbad.
  destruct (serve_gate req w)
    as [(Hn & _)|[(_ & _ & Hg)|(e & s & _ & Hc & Hb & _)]].
  - contradiction.
  - exact Hg.
  - destruct Hbad as [Hbad|Hbad]; [contradiction|congruence].
Qed.

Lemma unreadable_request_is_server_error_witness :
  authenticated bodyless_post subscribed_deployment ∧
  body bodyless_post = None ∧
  serve bodyless_post subscribed_deployment =
    (Ok server_error, subscribed_deployment).
Proof.
  assert (Ha : authenticated bodyless_post subscribed_deployment).
  { split; [reflexivity|]. exists "whsec_7f3a".
    split; [discriminate|]. split; reflexivity. }
  split; [exact Ha|]. split; [reflexivity|].
  exact (unreadable_request_is_server_error bodyless_post
           subscribed_deployment Ha (or_intror eq_refl)).
Defined.

(** ** Events in sequence *)

Lemma activation_trigger_iff u e p pl exp tx en w :
  printable exp →
  store_fault w (store_requests w) = None →
  store_fault w (S (store_requests w)) = None →
  InsightsTrigger u ∈ emitted (handleSubscriptionActivation u e p pl exp tx en) w
  ↔ e = "product_a" ∧ is_new (db w !! (u, e)) = true.
Proof.
  intros Hp Hl Hf.
  destruct (activation_applied u e p pl exp tx en w Hp Hf)
    as (w1 & posts & Hrun & _ & _ & _ & _ & _ & Htrace & Hposts).
  erewrite emitted_app; [|rewrite Hrun; exact Htrace].
  unfold seen. rewrite Hl.
  destruct (String.eqb_spec e "product_a") as [He|He];
    destruct (is_new (db w !! (u, e))); cbn [andb].
  - split; [tauto|]. intros _. in_list.
  - split; [|intros (_ & [=])]. intros Hin.
    repeat (apply elem_of_cons in Hin as [Hin|Hin]; [discriminate|]).
    inversion Hin.
  - split; [|intros (? & _); contradiction]. intros Hin.
    repeat (apply elem_of_cons in Hin as [Hin|Hin]; [discriminate|]).
    inversion Hin.
  - split; [|intros (? & _); contradiction]. intros Hin.
    repeat (apply elem_of_cons in Hin as [Hin|Hin]; [discriminate|]).
    inversion Hin.
Qed.

(** The record each handler leaves when the store answers carries the
    [active] flag the handler writes. *)
Lemma after_activation u e p pl exp tx en w :
  printable exp → store_answers w →
  let w1 := snd (handleSubscriptionActivation u e p pl exp tx en w) in
  store_answers w1 ∧
  ∃ row, db w1 !! (u, e) = Some row ∧ active row = true.
Proof.
  intros Hp Hs.
  destruct (activation_applied u e p pl exp tx en w Hp (Hs _))
    as (w1 & posts & Hrun & Hdb & _ & _ & Hf & _).
  cbv zeta. rewrite Hrun. cbn [snd]. split.
  - intros i. rewrite Hf. apply Hs.
  - rewrite Hdb, lookup_insert_eq. eexists. split; reflexivity.
Qed.

Lemma after_cancellation u e exp w :
  printable exp → store_answers w →
  let w1 := snd (handleSubscriptionCancellation u e exp w) in
  store_answers w1 ∧
  ∃ row, db w1 !! (u, e) = Some row ∧ active row = true.
Proof.
  intros Hp Hs. cbv zeta.
  rewrite (cancellation_run u e exp w _
             (expiration_text_printable exp Hp) (Hs _) (Hs _)).
  cbn [snd]. split; [exact Hs|].
  rewrite db_written. cbn [p_profile_id p_permission_id cancellation_payload].
  rewrite lookup_insert_eq. eexists. split; reflexivity.
Qed.

Lemma after_billing u e w row :
  store_answers w → db w !! (u, e) = Some row →
  let w1 := snd (handleBillingIssue u e w) in
  store_answers w1 ∧
  ∃ row', db w1 !! (u, e) = Some row' ∧ active row' = true.
Proof.
  intros Hs Hr. cbv zeta.
  rewrite (billing_run_present u e w row (Hs _) (Hs _) Hr).
  cbn [snd]. split; [exact Hs|].
  rewrite db_written. cbn [p_profile_id p_permission_id billing_payload].
  rewrite lookup_insert_eq. eexists. split; reflexivity.
Qed.

Lemma after_expiration u e w :
  store_answers w →
  let w1 := snd (handleSubscriptionExpiration u e w) in
  store_answers w1 ∧
  ∃ row, db w1 !! (u, e) = Some row ∧ active row = false.
Proof.
  intros Hs. cbv zeta.
  rewrite (expiration_run u e w (Hs _) (Hs _)).
  cbn [snd]. split; [exact Hs|].
  rewrite db_written. cbn [p_profile_id p_permission_id expiration_payload].
  rewrite lookup_insert_eq. eexists. split; reflexivity.
Qed.

(** X13. Which event makes the next premium activation count as new.
    With the store answering, an activation that follows an activation, a
    cancellation, or a billing issue on an existing record does not start
    the insights trigger, whatever product, store, expiration or
    transaction it carries; an activation that follows an expiration
    starts it, also when the key had no record before the expiration. *)
Theorem next_activation_is_new_only_after_expiration
    (u : string) (w : world) (p pl : string) (exp : option Z) (tx en : string) :
  store_answers w →
  printable exp →
  let next := handleSubscriptionActivation u "product_a" p pl exp tx en in
  (∀ p0 pl0 exp0 tx0 en0, printable exp0 →
     InsightsTrigger u ∉
       emitted next
         (snd (handleSubscriptionActivation u "product_a" p0 pl0 exp0 tx0 en0
                 w))) ∧
  (∀ exp0, printable exp0 →
     InsightsTrigger u ∉
       emitted next (snd (handleSubscriptionCancellation u "product_a" exp0 w))) ∧
  (∀ row, db w !! (u, "product_a") = Some row →
     InsightsTrigger u ∉
       emitted next (snd (handleBillingIssue u "product_a" w))) ∧
  InsightsTrigger u ∈
    emitted next (snd (handleSubscriptionExpiration u "product_a" w)).
Proof.
  intros Hs Hp next. subst next.
  split; [|split; [|split]].
  - intros p0 pl0 exp0 tx0 en0 Hp0.
    destruct (after_activation u "product_a" p0 pl0 exp0 tx0 en0 w Hp0 Hs)
      as (Hs1 & row & Hrow & Hact).
    rewrite (activation_trigger_iff _ _ _ _ _ _ _ _ Hp (Hs1 _) (Hs1 _)).
    rewrite Hrow. cbn. rewrite Hact. intros (_ & [=]).
  - intros exp0 Hp0.
    destruct (after_cancellation u "product_a" exp0 w Hp0 Hs)
      as (Hs1 & row & Hrow & Hact).
    rewrite (activation_trigger_iff _ _ _ _ _ _ _ _ Hp (Hs1 _) (Hs1 _)).
    rewrite Hrow. cbn. rewrite Hact. intros (_ & [=]).
  - intros row0 Hr.
    destruct (after_billing u "product_a" w row0 Hs Hr)
      as (Hs1 & row & Hrow & Hact).
    rewrite (activation_trigger_iff _ _ _ _ _ _ _ _ Hp (Hs1 _) (Hs1 _)).
    rewrite Hrow. cbn. rewrite Hact. intros (_ & [=]).
  - destruct (after_expiration u "product_a" w Hs)
      as (Hs1 & row & Hrow & Hact).
    rewrite (activation_trigger_iff _ _ _ _ _ _ _ _ Hp (Hs1 _) (Hs1 _)).
    rewrite Hrow. cbn. rewrite Hact. split; reflexivity.
Qed.

Lemma next_activation_is_new_only_after_expiration_witness :
  store_answers subscribed_deployment ∧
  printable (Some 1893456000000) ∧
  InsightsTrigger "u1" ∈
    emitted sample_renewal
      (snd (handleSubscriptionExpiration "u1" "product_a"
              subscribed_deployment)).
Proof.
  split; [apply sample_store_answers|].
  split; [apply printable_sample; reflexivity|].
  exact (proj2 (proj2 (proj2
    (next_activation_is_new_only_after_expiration
       "u1" subscribed_deployment "p1" "app_store" (Some 1893456000000)
       "t2" "PRODUCTION" (sample_store_answers sample_table)
       (printable_sample 1893456000000 eq_refl))))).
Defined.

(** ** The permission check of the insights function *)

Lemma hasProductA_run u w :
  hasProductA u w =
    (Ok (match store_fault w (store_requests w) with
         | Some _ => false
         | None => match db w !! (u, "product_a") with
                   | Some row => active row
                   | None => false
                   end
         end),
     looked_up "*" u "product_a" w).
Proof.
  unfold hasProductA, try_catch, bind, store_select_active, ret.
  destruct (store_fault w (store_requests w)); [reflexivity|].
  destruct (db w !! (u, "product_a")) as [row|]; [|reflexivity].
  destruct (active row); reflexivity.
Qed.

(** X14. The permission check of the insights function agrees with the
    webhook's handlers.  With the store answering, the check grants
    premium access to a user right after an activation, a cancellation, or
    a billing issue on an existing record for ["product_a"], and denies it
    right after an expiration. *)
Theorem access_follows_the_last_event (u : string) (w : world) :
  store_answers w →
  (∀ p pl exp tx en, printable exp →
     fst (hasProductA u
            (snd (handleSubscriptionActivation u "product_a" p pl exp tx en w)))
     = Ok true) ∧
  (∀ exp, printable exp →
     fst (hasProductA u
            (snd (handleSubscriptionCancellation u "product_a" exp w)))
     = Ok true) ∧
  (∀ row, db w !! (u, "product_a") = Some row →
     fst (hasProductA u (snd (handleBillingIssue u "product_a" w)))
     = Ok true) ∧
  fst (hasProductA u (snd (handleSubscriptionExpiration u "product_a" w)))
  = Ok false.
Proof.
  intros Hs. split; [|split; [|split]].
  - intros p pl exp tx en Hp.
    destruct (after_activation u "product_a" p pl exp tx en w Hp Hs)
      as (Hs1 & row & Hrow & Hact).
    rewrite hasProductA_run, (Hs1 _), Hrow, Hact. reflexivity.
  - intros exp Hp.
    destruct (after_cancellation u "product_a" exp w Hp Hs)
      as (Hs1 & row & Hrow & Hact).
    rewrite hasProductA_run, (Hs1 _), Hrow, Hact. reflexivity.
  - intros row0 Hr.
    destruct (after_billing u "product_a" w row0 Hs Hr)
      as (Hs1 & row & Hrow & Hact).
    rewrite hasProductA_run, (Hs1 _), Hrow, Hact. reflexivity.
  - destruct (after_expiration u "product_a" w Hs)
      as (Hs1 & row & Hrow & Hact).
    rewrite hasProductA_run, (Hs1 _), Hrow, Hact. reflexivity.
Qed.

Lemma access_follows_the_last_event_witness :
  store_answers subscribed_deployment ∧
  fst (hasProductA "u1" subscribed_deployment) = Ok true ∧
  fst (hasProductA "u1"
         (snd (handleSubscriptionExpiration "u1" "product_a"
                 subscribed_deployment)))
  = Ok false.
Proof.
  split; [apply sample_store_answers|].
  split; [vm_compute; reflexivity|].
  exact (proj2 (proj2 (proj2
    (access_follows_the_last_event "u1" subscribed_deployment
       (sample_store_answers sample_table))))).
Defined.

(** X15. The permission check never throws and never changes the table,
    and it fails closed: it grants premium access only if the table holds
    an active record for the user's ["product_a"] key, and it denies
    access whenever the store fails its lookup, whatever the table
    holds. *)
Theorem permission_check_fails_closed (u : string) (w : world) :
  ∃ granted w',
    hasProductA u w = (Ok granted, w') ∧
    db w' = db w ∧
    (granted = true →
     ∃ row, db w !! (u, "product_a") = Some row ∧ active row = true) ∧
    (store_fault w (store_requests w) ≠ None → granted = false).
Proof.
  rewrite hasProductA_run. eexists _, _.
  split; [reflexivity|]. split; [reflexivity|].
  destruct (store_fault w (store_requests w)) as [err|].
  - split; [discriminate|]. reflexivity.
  - split; [|intros H; contradiction].
    destruct (db w !! (u, "product_a")) as [row|]; [|discriminate].
    intros Hact. exists row. split; [reflexivity|exact Hact].
Qed.

(** ** Card variants *)

Lemma variantMap_range (key ui : string) :
  variantMap key = Some ui → ui ∈ ui_variants ∧ variantMap ui = Some ui.
Proof.
  unfold variantMap, ui_variants.
  repeat match goal with
  | |- context [String.eqb key ?c] =>
      destruct (String.eqb key c);
      [intros [= <-]; split; [in_list|reflexivity]|]
  end.
  discriminate.
Qed.

(** X16. [mapCardVariantToUi] normalises a card's variant: for every
    variant that is not the name of a member of the runtime's
    [Object.prototype] the result is one of the four variants the
    interface renders ("standard" for anything unknown or absent), and
    mapping the result again gives the same result. *)
Theorem card_variant_is_normalised
    (prototype : list string) (variant : jsval) :
  (∀ key, variant = JStr key → key ∉ prototype) →
  ∃ ui,
    mapCardVariantToUi prototype variant = Variant ui ∧
    ui ∈ ui_variants ∧
    mapCardVariantToUi prototype (JStr ui) = Variant ui.
Proof.
  intros Hn.
  assert (Hstd : "standard" ∈ ui_variants ∧
                 mapCardVariantToUi prototype (JStr "standard")
                 = Variant "standard").
  { split; [unfold ui_variants; in_list|reflexivity]. }
  destruct variant as [| | | |key]; try (exists "standard"; tauto).
  unfold mapCardVariantToUi at 1.
  destruct (variantMap key) as [ui|] eqn:Hk.
  - destruct (variantMap_range key ui Hk) as [Hin Hfix].
    exists ui. split; [reflexivity|]. split; [exact Hin|].
    unfold mapCardVariantToUi. rewrite Hfix. reflexivity.
  - rewrite bool_decide_eq_false_2 by exact (Hn key eq_refl).
    exists "standard". tauto.
Qed.

Lemma card_variant_is_normalised_witness :
  (∀ key, JStr "filled" = JStr key → key ∉ inherited_members) ∧
  ∃ ui,
    mapCardVariantToUi inherited_members (JStr "filled") = Variant ui ∧
    ui ∈ ui_variants.
Proof.
  assert (Hn : ∀ key, JStr "filled" = JStr key → key ∉ inherited_members).
  { intros key [= <-]. unfold inherited_members. intros Hin.
    repeat (apply elem_of_cons in Hin as [Hin|Hin]; [discriminate|]).
    inversion Hin. }
  split; [exact Hn|].
  destruct (card_variant_is_normalised inherited_members (JStr "filled") Hn)
    as (ui & Hmap & Hin & _).
  exists ui. split; [exact Hmap|exact Hin].
Defined.

(** ** The user the insights function works for *)

Lemma bearer_token (key : string) :
  string_replace "Bearer " "" ("Bearer " +:+ key) = key.
Proof. reflexivity. Qed.

(** X17. The insights function works for the user the webhook names.  For
    every post the webhook sends to the insights endpoint, the token the
    insights function takes from the [Authorization] header is the
    service role key; when the authentication service does not accept
    that key as a user's token, the function falls back to the [userId]
    of the body, which is the user of the webhook's event. *)
Theorem webhook_post_is_resolved_to_event_user
    (getUser : string → outcome auth_reply)
    (req : request) (w : world) (url bearer uid trg : string) :
  InsightsPost url bearer uid trg ∈ emitted (serve req) w →
  uid ≠ "" →
  token_rejected (getUser (or_empty (env w !! "SUPABASE_SERVICE_ROLE_KEY"))) →
  string_replace "Bearer " "" bearer
    = or_empty (env w !! "SUPABASE_SERVICE_ROLE_KEY") ∧
  resolve_userId getUser (Some bearer) (JStr uid) = Ok (JStr uid) ∧
  ∃ e, body req = Some e ∧ uid = original_app_user_id e.
Proof.
  intros Hin Hu Hrej.
  assert (Hpost : bearer = insights_bearer w ∧
                  ∃ e, body req = Some e ∧ uid = original_app_user_id e).
  { destruct (serve_gate req w)
      as [(_ & r & _ & Hg)|[(_ & _ & Hg)|(e & s & Ha & Hc & Hb & Hs)]].
    - rewrite (emitted_nothing (serve req) w) in Hin
        by (rewrite Hg; reflexivity).
      inversion Hin.
    - rewrite (emitted_nothing (serve req) w) in Hin
        by (rewrite Hg; reflexivity).
      inversion Hin.
    - rewrite (emitted_serve req w e s Ha Hc Hb Hs) in Hin.
      pose proof (selected_shape e (toLowerCase (runtime w) s) w) as Hshape.
      cbv zeta in Hshape.
      destruct (shape_post _ _ _ _ _ _ _ _ _ _ Hshape Hin)
        as (_ & -> & -> & _ & _).
      split; [reflexivity|]. exists e. split; [exact Hb|reflexivity]. }
  destruct Hpost as [-> Hev].
  unfold insights_bearer.
  split; [apply bearer_token|]. split; [|exact Hev].
  unfold resolve_userId.
  change (String.eqb ("Bearer " +:+ ?k) "") with false.
  cbv iota. rewrite bearer_token.
  assert (Ht : truthy (JStr uid) = true).
  { cbn. destruct (String.eqb_spec uid ""); [contradiction|reflexivity]. }
  destruct (getUser _) as [[user [err|]]|err]; cbn [auth_error auth_user];
    cbn [token_rejected auth_error] in Hrej;
    try (rewrite Ht; reflexivity).
  contradiction.
Qed.

Lemma webhook_post_is_resolved_to_event_user_witness :
  InsightsPost
    "https://golf.supabase.co/functions/v1/analyze-golf-performance"
    "Bearer service-role-key" "u1" "purchase_webhook"
    ∈ emitted (serve purchase_post) fresh_deployment ∧
  resolve_userId no_session (Some "Bearer service-role-key") (JStr "u1")
  = Ok (JStr "u1").
Proof.
  assert (Hin : InsightsPost
    "https://golf.supabase.co/functions/v1/analyze-golf-performance"
    "Bearer service-role-key" "u1" "purchase_webhook"
    ∈ emitted (serve purchase_post) fresh_deployment).
  { rewrite purchase_emitted. in_list. }
  split; [exact Hin|].
  refine (proj1 (proj2
    (webhook_post_is_resolved_to_event_user no_session purchase_post
       fresh_deployment _ _ _ _ Hin _ _))).
  - discriminate.
  - cbn. discriminate.
Defined.

(** X18. The insights function never works for an unverified user id while
    a token that names a user is at hand.  When it determines a user id,
    the id is truthy, and it is either the id of the user the
    authentication service resolved the header's token to, or the
    [userId] of the request body; the body's id is used only when the
    request has no (or an empty) [Authorization] header or the
    authentication service rejected the token.  A token that the service
    answers without error and without user ends the request with an
    error, whatever the body names. *)
Theorem user_id_is_verified_or_fallback
    (getUser : string → outcome auth_reply)
    (authHeader : option string) (requestBody_userId : jsval) :
  (∀ userId,
     resolve_userId getUser authHeader requestBody_userId = Ok userId →
     truthy userId = true ∧
     ((∃ header id,
         authHeader = Some header ∧
         getUser (string_replace "Bearer " "" header)
           = Ok {| auth_user := Some id; auth_error := None |} ∧
         userId = JStr id) ∨
      (userId = requestBody_userId ∧
       (falsy authHeader = true ∨
        ∃ header,
          authHeader = Some header ∧
          token_rejected (getUser (string_replace "Bearer " "" header)))))) ∧
  (∀ header,
     authHeader = Some header → header ≠ "" →
     getUser (string_replace "Bearer " "" header)
       = Ok {| auth_user := None; auth_error := None |} →
     ∃ err,
       resolve_userId getUser authHeader requestBody_userId = Throw err).
Proof.
  split.
  - intros userId. unfold resolve_userId.
    destruct authHeader as [header|]; cbn [falsy].
    + destruct (String.eqb header "") eqn:Hh.
      * destruct (truthy requestBody_userId) eqn:Ht; [|discriminate].
        intros [= <-]. split; [exact Ht|]. right. split; [reflexivity|].
        left. reflexivity.
      * destruct (getUser _) as [[user [err|]]|err] eqn:Hg;
          cbn [auth_error auth_user].
        -- destruct (truthy requestBody_userId) eqn:Ht; [|discriminate].
           intros [= <-]. split; [exact Ht|]. right. split; [reflexivity|].
           right. exists header. split; [reflexivity|].
           rewrite Hg. cbn. discriminate.
        -- destruct user as [id|]; [|cbn; discriminate].
           destruct (truthy (JStr id)) eqn:Ht; [|discriminate].
           intros [= <-]. split; [exact Ht|]. left.
           exists header, id. split; [reflexivity|].
           split; [exact Hg|reflexivity].
        -- destruct (truthy requestBody_userId) eqn:Ht; [|discriminate].
           intros [= <-]. split; [exact Ht|]. right. split; [reflexivity|].
           right. exists header. split; [reflexivity|].
           rewrite Hg. exact I.
    + destruct (truthy requestBody_userId) eqn:Ht; [|discriminate].
      intros [= <-]. split; [exact Ht|]. right. split; [reflexivity|].
      left. reflexivity.
  - intros header -> Hne Hg. unfold resolve_userId.
    destruct (String.eqb_spec header ""); [contradiction|].
    rewrite Hg. cbn. eexists. reflexivity.
Qed.

Lemma user_id_is_verified_or_fallback_witness :
  resolve_userId no_session (Some "Bearer abc") (JStr "u1") = Ok (JStr "u1") ∧
  truthy (JStr "u1") = true ∧
  ∃ err,
    resolve_userId empty_session (Some "Bearer abc") (JStr "u1") = Throw err.
Proof.
  split; [reflexivity|].
  split.
  - exact (proj1 (proj1 (user_id_is_verified_or_fallback no_session
                           (Some "Bearer abc") (JStr "u1"))
                    (JStr "u1") eq_refl)).
  - refine (proj2 (user_id_is_verified_or_fallback empty_session
                     (Some "Bearer abc") (JStr "u1"))
              "Bearer abc" eq_refl _ eq_refl).
    discriminate.
Defined.
